(** * M18 charger protocol client (new_m18.py)

    A shallow embedding of the data-field model, the interactive port
    selector and the [M18] protocol client, followed by the properties
    established about them.

    Python integers are [Z]; the elements of a [bytes]/[bytearray] are
    [Byte.byte] (so a byte is in 0..255 by its type) and [byte_val] gives
    the integer Python sees when it indexes or iterates such an object.
    Python objects that are mutated through a reference (the [M18]
    instances and the [bytearray] command buffers) live in an explicit
    store, addressed by object identity. *)

From stdpp Require Import gmap strings list fin_maps pretty.
From Stdlib Require Import ZArith Lia Strings.Byte.

Local Open Scope Z_scope.

(** ** Bytes *)

(** The integer value of a byte, as Python's iteration over a
    [bytearray] yields it. *)
Definition byte_val (b : byte) : Z := Z.of_N (Byte.to_N b).

(** The byte holding an integer of [range(256)]; anything else is not a
    byte ([bytes([v])] raises for it). *)
Definition byte_of_Z (v : Z) : option byte :=
  if (0 <=? v) && (v <=? 255) then Byte.of_N (Z.to_N v) else None.

(** Modelled from the spec: [M18.reverse_bits] is called by [_send] and
    [read_response] but its body is not part of the source file.  The
    spec describes it as a full 8-bit mirror: bit 0 of the logical byte
    becomes bit 7 of the wire byte and vice versa. *)
Definition reverse_bits (b : byte) : byte :=
  let '(b0, (b1, (b2, (b3, (b4, (b5, (b6, b7))))))) := Byte.to_bits b in
  Byte.of_bits (b7, (b6, (b5, (b4, (b3, (b2, (b1, b0))))))).

(** [f"{byte:02X}"]: two upper-case hexadecimal digits. *)
Definition hex_digit (d : Z) : string :=
  match d with
  | 0 => "0" | 1 => "1" | 2 => "2" | 3 => "3" | 4 => "4" | 5 => "5"
  | 6 => "6" | 7 => "7" | 8 => "8" | 9 => "9" | 10 => "A" | 11 => "B"
  | 12 => "C" | 13 => "D" | 14 => "E" | _ => "F"
  end%string.

Definition hex2 (b : byte) : string :=
  (hex_digit (byte_val b / 16) +:+ hex_digit (byte_val b mod 16))%string.

(** [" ".join(f"{byte:02X}" for byte in data)] *)
Definition hex_join (data : list byte) : string :=
  String.concat " " (map hex2 data).


(** ** Field type model *)

(** [class DataType(Enum)] *)
Inductive DataType : Set :=
| UINT | DATE | ASCII | SN | ADC_T | DEC_T | CELL_V | HHMMSS.

(** The string value attached to each member. *)
Definition DataType_value (t : DataType) : string :=
  match t with
  | UINT => "uint" | DATE => "date" | ASCII => "ascii" | SN => "sn"
  | ADC_T => "adc_t" | DEC_T => "dec_t" | CELL_V => "cell_v"
  | HHMMSS => "hhmmss"
  end%string.

(** [@dataclass class DataField]: no range is enforced on construction,
    so [address] is any integer.  The field [length] is [length_] here,
    the plain name being the length of lists. *)
Record DataField : Type := mkDataField {
  address : Z;
  length_ : Z;
  data_type : DataType;
  description : string
}.

(** [(self.address >> 8) & 0xFF] *)
Definition addr_h (f : DataField) : Z := Z.land (Z.shiftr (address f) 8) 0xFF.

(** [self.address & 0xFF] *)
Definition addr_l (f : DataField) : Z := Z.land (address f) 0xFF.

(** ** Checksum and packing *)

(** [M18.calculate_checksum]: the loop [checksum += byte & 0xFFFF] over
    the payload, starting from 0. *)
Definition calculate_checksum (payload : list byte) : Z :=
  fold_left (fun checksum byte => checksum + Z.land (byte_val byte) 0xFFFF)
            payload 0.

(** The exceptions the embedded code can raise. *)
Inductive Exception : Type :=
| ValueError (msg : string)      (* [raise ValueError(...)], [int()] *)
| StructError                    (* [struct.error] from [struct.pack] *)
| AttributeError (name : string) (* attribute found on neither instance nor class *)
| IndexError                     (* sequence index out of range *)
| EOFError                       (* [input()] at end of input *)
| NoSuchObject (id : nat).       (* a reference to nothing: cannot arise in Python *)

(** [struct.pack(">H", v)]: two bytes, most significant first, for an
    integer that fits an unsigned 16-bit field; [struct.error] for any
    other integer (Python's [struct] never truncates). *)
Definition struct_pack_H (v : Z) : Exception + list byte :=
  if (0 <=? v) && (v <=? 65535) then
    match byte_of_Z (v / 256), byte_of_Z (v mod 256) with
    | Some hi, Some lo => inr [hi; lo]
    | _, _ => inl StructError
    end
  else inl StructError.

(** ** The serial port

    [serial.Serial] is opened with a read timeout (TIMEOUT = 0.8), so
    [read(size)] hands back the bytes that arrive before the timeout: at
    most [size] of them, possibly fewer, possibly none.  The port is
    modelled by the bytes that will reach it in time, oldest first, and
    by a log of the calls made on it. *)

Inductive PortEvent : Type :=
| PortRead (size : Z) (got : list byte)
| PortWrite (data : list byte)
| PortResetInput.

Record Serial : Type := mkSerial {
  in_waiting : list byte;
  port_log : list PortEvent
}.

(** [port.read(size)]; a [size] below 1 asks for nothing. *)
Definition Serial_read (size : Z) (p : Serial) : list byte * Serial :=
  let got := take (Z.to_nat size) (in_waiting p) in
  (got, {| in_waiting := drop (Z.to_nat size) (in_waiting p);
           port_log := port_log p ++ [PortRead size got] |}).

(** [port.write(data)] *)
Definition Serial_write (data : list byte) (p : Serial) : unit * Serial :=
  (tt, {| in_waiting := in_waiting p;
          port_log := port_log p ++ [PortWrite data] |}).

(** [port.reset_input_buffer()]: pending input is discarded.  The model
    holds the input pending at the time of a call and no byte that a
    device sends later in reply to a write, so it describes a send and a
    read each on its own, not a read that follows a send. *)
Definition Serial_reset_input_buffer (p : Serial) : unit * Serial :=
  (tt, {| in_waiting := []; port_log := port_log p ++ [PortResetInput] |}).

(** Everything written to the port so far, in order. *)
Definition written (p : Serial) : list (list byte) :=
  omap (fun e => match e with PortWrite d => Some d | _ => None end)
       (port_log p).

(** ** Objects and the store *)

(** Transmission constants of [class M18]. *)
Definition SYNC_BYTE : Z := 0xAA.
Definition CAL_CMD : Z := 0x55.
Definition CONF_CMD : Z := 0x60.
Definition SNAP_CMD : Z := 0x61.
Definition KEEPALIVE_CMD : Z := 0x62.
Definition CUTOFF_CURRENT : Z := 300.
Definition MAX_CURRENT : Z := 6000.
Definition ACC : Z := 4.
Definition BAUDRATE : Z := 4800.
Definition STOPBITS : Z := 2.

(** The print flags declared in the body of [class M18]: attributes of
    the class object.  No code of the module assigns to them. *)
Definition M18_class_dict : gmap string bool :=
  <["PRINT_TX" := false]> (<["PRINT_RX" := false]>
  (<["PRINT_TX_SAVE" := false]> (<["PRINT_RX_SAVE" := false]> ∅))).

(** An [M18] instance: the flag attributes assigned on the instance
    itself (its [__dict__]), and the port it opened.  [__init__] assigns
    [self.port] and then calls [self.idle()], whose body is not in the
    source file, so instances are placed in the store directly. *)
Record M18Object : Type := mkM18Object {
  obj_dict : gmap string bool;
  obj_port : Serial
}.

(** The store: [M18] instances and [bytearray] objects by identity, and
    the lines printed so far. *)
Record World : Type := mkWorld {
  objects : gmap nat M18Object;
  bytearrays : gmap nat (list byte);
  stdout : list string
}.

(** Computations over the store that may raise.  A raised exception
    keeps the effects made before it. *)
Definition Py (A : Type) : Type := World -> (Exception + A) * World.

#[global] Instance Py_ret : MRet Py := fun A (x : A) w => (inr x, w).

#[global] Instance Py_bind : MBind Py := fun A B (k : A -> Py B) (c : Py A) w =>
  match c w with
  | (inr x, w') => k x w'
  | (inl e, w') => (inl e, w')
  end.

Definition raise {A : Type} (e : Exception) : Py A := fun w => (inl e, w).

Definition lift_result {A : Type} (r : Exception + A) : Py A := fun w => (r, w).

(** Store updates: one object replaced, one bytearray replaced, one
    line printed. *)
Definition put_object (self : nat) (o : M18Object) (w : World) : World :=
  {| objects := <[self := o]> (objects w);
     bytearrays := bytearrays w; stdout := stdout w |}.

Definition put_bytearray (ref : nat) (data : list byte) (w : World) : World :=
  {| objects := objects w;
     bytearrays := <[ref := data]> (bytearrays w); stdout := stdout w |}.

Definition put_line (line : string) (w : World) : World :=
  {| objects := objects w; bytearrays := bytearrays w;
     stdout := stdout w ++ [line] |}.

(** [print(line)] *)
Definition print (line : string) : Py unit := fun w => (inr tt, put_line line w).

(** Attribute lookup on an instance: its own attribute when it has one,
    else the attribute of the class. *)
Definition lookup_attr (o : M18Object) (name : string) : option bool :=
  match obj_dict o !! name with
  | Some v => Some v
  | None => M18_class_dict !! name
  end.

(** Attribute assignment on an instance: its own [__dict__] is written;
    the class is never touched. *)
Definition assign_attr (name : string) (v : bool) (o : M18Object) : M18Object :=
  {| obj_dict := <[name := v]> (obj_dict o); obj_port := obj_port o |}.

(** [self.name] *)
Definition getattr (self : nat) (name : string) : Py bool := fun w =>
  match objects w !! self with
  | None => (inl (NoSuchObject self), w)
  | Some o =>
      match lookup_attr o name with
      | Some v => (inr v, w)
      | None => (inl (AttributeError name), w)
      end
  end.

(** [self.name = v] *)
Definition setattr (self : nat) (name : string) (v : bool) : Py unit := fun w =>
  match objects w !! self with
  | None => (inl (NoSuchObject self), w)
  | Some o => (inr tt, put_object self (assign_attr name v o) w)
  end.

(** A call on [self.port]. *)
Definition on_port {A : Type} (self : nat) (call : Serial -> A * Serial) : Py A :=
  fun w =>
  match objects w !! self with
  | None => (inl (NoSuchObject self), w)
  | Some o =>
      (inr (call (obj_port o)).1,
       put_object self {| obj_dict := obj_dict o;
                          obj_port := (call (obj_port o)).2 |} w)
  end.

(** The current content of a [bytearray]. *)
Definition bytearray_get (ref : nat) : Py (list byte) := fun w =>
  match bytearrays w !! ref with
  | None => (inl (NoSuchObject ref), w)
  | Some data => (inr data, w)
  end.

(** [ref += more] on a [bytearray]: the object itself grows. *)
Definition bytearray_iadd (ref : nat) (more : list byte) : Py unit := fun w =>
  match bytearrays w !! ref with
  | None => (inl (NoSuchObject ref), w)
  | Some data => (inr tt, put_bytearray ref (data ++ more) w)
  end.

(** ** Debug helper *)

(** [print_debug_bytes(data)]: [print(f"DEBUG: ", data_print)] prints
    its two arguments with one space between them. *)
Definition print_debug_bytes (data : nat) : Py unit :=
  content ← bytearray_get data;
  let data_print := hex_join content in
  print ("DEBUG: " +:+ " " +:+ data_print).

(** ** The protocol client *)

Definition set_txrx_print (self : nat) (enable : bool) : Py unit :=
  setattr self "PRINT_TX" enable ;;
  setattr self "PRINT_RX" enable.

Definition save_and_set_txrx (self : nat) (enable : bool) : Py unit :=
  tx ← getattr self "PRINT_TX";
  setattr self "PRINT_TX_SAVE" tx ;;
  rx ← getattr self "PRINT_RX";
  setattr self "PRINT_RX_SAVE" rx ;;
  set_txrx_print self enable.

Definition restore_txrx (self : nat) : Py unit :=
  tx ← getattr self "PRINT_TX_SAVE";
  setattr self "PRINT_TX" tx ;;
  rx ← getattr self "PRINT_RX_SAVE";
  setattr self "PRINT_RX" rx.

(** [lsb_command += struct.pack(">H", self.calculate_checksum(lsb_command))]
    then [return lsb_command]: the reference handed in is handed back. *)
Definition add_checksum (self lsb_command : nat) : Py nat :=
  payload ← bytearray_get lsb_command;
  packed ← lift_result (struct_pack_H (calculate_checksum payload));
  bytearray_iadd lsb_command packed ;;
  mret lsb_command.

Definition _send (self message : nat) : Py unit :=
  on_port self Serial_reset_input_buffer ;;
  data ← bytearray_get message;
  let debug_print := hex_join data in
  let msb := map reverse_bits data in
  tx ← getattr self "PRINT_TX";
  (if tx : bool then print ("Sending:  " +:+ debug_print) else mret tt) ;;
  on_port self (Serial_write msb).

Definition send_command (self command : nat) : Py unit :=
  frame ← add_checksum self command;
  _send self frame.

Definition read_response (self : nat) (size : Z) : Py (list byte) :=
  msb_response ← on_port self (Serial_read 1);
  match msb_response with
  | [] => raise (ValueError "Empty response")
  | first :: _ =>
      more ← (if byte_val (reverse_bits first) =? 0x82
              then on_port self (Serial_read 1)
              else on_port self (Serial_read (size - 1)));
      let msb_response := msb_response ++ more in
      let lsb_response := map reverse_bits msb_response in
      let debug_print := hex_join lsb_response in
      rx ← getattr self "PRINT_RX";
      (if rx : bool then print ("Received: " +:+ debug_print) else mret tt) ;;
      mret lsb_response
  end.

(** ** Interactive port selector *)

(** What [list_ports.comports()] reports about one port. *)
Record ListPortInfo : Type := mkListPortInfo {
  device : string;
  manufacturer : string;
  port_description : string
}.

(** The console: the lines still to be typed, and the lines shown. *)
Record Console : Type := mkConsole {
  stdin : list string;
  shown : list string
}.

Definition show (line : string) (c : Console) : Console :=
  {| stdin := stdin c; shown := shown c ++ [line] |}.

(** The double-quote character, as a one-character string. *)
Definition dquote : string := String (Ascii.ascii_of_nat 34) EmptyString.

(** [f"{p.device} - {p.manufacturer} - {p.description}"] *)
Definition port_label (p : ListPortInfo) : string :=
  (device p +:+ " - " +:+ manufacturer p +:+ " - " +:+ port_description p)%string.

(** The listing loop: [for p in ports: print(...); i = i + 1], from a
    given [i]; the final [i] is returned with the console. *)
Fixpoint list_ports_loop (i : Z) (ports : list ListPortInfo) (c : Console)
  : Z * Console :=
  match ports with
  | [] => (i, c)
  | p :: rest =>
      list_ports_loop (i + 1) rest
        (show ("  " +:+ pretty i +:+ ": " +:+ port_label p) c)
  end.

Section PortSelector.

(** Python's [int()] on a typed line: [None] stands for [ValueError]. *)
Variable int : string -> option Z.

(** [while (port_id < 1) or (port_id >= i): ...].  Each turn of the loop
    takes one typed line; when none is left [input()] raises [EOFError]. *)
Fixpoint selection_loop (i port_id : Z) (lines shown_ : list string)
  : (Exception + Z) * Console :=
  if (port_id <? 1) || (port_id >=? i) then
    let shown_ := shown_ ++ ["Choose a port (1-" +:+ pretty (i - 1) +:+ "): "] in
    match lines with
    | [] => (inl EOFError, {| stdin := []; shown := shown_ |})
    | user_port :: lines' =>
        match int user_port with
        | Some n => selection_loop i n lines' shown_
        | None =>
            selection_loop i port_id lines'
              (shown_ ++ ["Invalid input. Please enter a number"])
        end
    end
  else (inr port_id, {| stdin := lines; shown := shown_ |}).

(** [prompt_com_port_selection()], given what [list_ports.comports()]
    returned. *)
Definition prompt_com_port_selection (ports : list ListPortInfo) (c : Console)
  : (Exception + string) * Console :=
  let c := show "*** NO PORT SPECIFIED ***" c in
  let c := show "Available serial ports (choose one that says USB somewhere):" c in
  let '(i, c) := list_ports_loop 1 ports c in
  match selection_loop i 0 (stdin c) (shown c) with
  | (inl e, c) => (inl e, c)
  | (inr port_id, c) =>
      (* [ports[port_id - 1]]; the loop has left [1 <= port_id < i] *)
      match ports !! Z.to_nat (port_id - 1) with
      | None => (inl IndexError, c)
      | Some p =>
          let c := show ("You selected " +:+ dquote +:+ port_label p +:+ dquote) c in
          let c := show ("In future, use " +:+ dquote +:+ "m18.py --port "
                         +:+ device p +:+ dquote +:+ " to avoid this menu") c in
          let c := show "Press Enter to continue" c in
          match stdin c with
          | [] => (inl EOFError, c)
          | _ :: lines => (inr (device p), {| stdin := lines; shown := shown c |})
          end
      end
  end.

End PortSelector.

(** ** Concrete stores

    Small stores on which the definitions above are evaluated. *)

(** A port with the given bytes on their way and nothing done yet. *)
Definition fresh_port (incoming : list byte) : Serial :=
  {| in_waiting := incoming; port_log := [] |}.

(** An instance as [__init__] leaves its flags: none assigned on it. *)
Definition fresh_instance (incoming : list byte) : M18Object :=
  {| obj_dict := ∅; obj_port := fresh_port incoming |}.

(** One client (object 0) and one command buffer (object 0 of the
    bytearrays). *)
Definition one_client (incoming command : list byte) : World :=
  {| objects := {[ 0%nat := fresh_instance incoming ]};
     bytearrays := {[ 0%nat := command ]};
     stdout := [] |}.

(** Two clients (objects 0 and 1), each on its own port. *)
Definition two_clients : World :=
  {| objects := <[0%nat := fresh_instance []]> {[ 1%nat := fresh_instance [] ]};
     bytearrays := ∅;
     stdout := [] |}.

(** Two listed ports. *)
Definition two_ports : list ListPortInfo :=
  [mkListPortInfo "/devA" "FTDI" "USB Serial";
   mkListPortInfo "/devB" "Prolific" "USB-Serial Controller"].

(** What [int()] makes of the lines typed in the examples: a single
    decimal digit is its value, and the other lines used there ([x], an
    empty line, [ok]) are not numbers. *)
Definition int_of_line (line : string) : option Z :=
  match line with
  | String c EmptyString =>
      let n := Z.of_N (Ascii.N_of_ascii c) - 48 in
      if (0 <=? n) && (n <=? 9) then Some n else None
  | _ => None
  end.

(** * Properties *)

(** ** Bytes and packing *)

Lemma byte_val_range (b : byte) : 0 <= byte_val b <= 255.
Proof.
  unfold byte_val. pose proof (Byte.to_N_bounded b). lia.
Qed.

Lemma byte_of_Z_Some (v : Z) :
  0 <= v <= 255 -> exists b, byte_of_Z v = Some b /\ byte_val b = v.
Proof.
  intros [Hlo Hhi]. unfold byte_of_Z.
  rewrite (proj2 (Z.leb_le 0 v) Hlo), (proj2 (Z.leb_le v 255) Hhi). simpl.
  destruct (Byte.of_N (Z.to_N v)) as [b|] eqn:E.
  - exists b. split; [reflexivity|].
    apply Byte.to_of_N in E. unfold byte_val. rewrite E. lia.
  - apply Byte.of_N_None_iff in E. lia.
Qed.

Lemma reverse_bits_involutive (b : byte) : reverse_bits (reverse_bits b) = b.
Proof.
  unfold reverse_bits at 2.
  destruct (Byte.to_bits b) as (b0, (b1, (b2, (b3, (b4, (b5, (b6, b7))))))) eqn:E.
  unfold reverse_bits. rewrite Byte.to_bits_of_bits.
  rewrite <- E. apply Byte.of_bits_to_bits.
Qed.

(** The mask [& 0xFFFF] leaves a byte value as it is. *)
Lemma land_byte_val (b : byte) : Z.land (byte_val b) 0xFFFF = byte_val b.
Proof.
  change 0xFFFF with (Z.ones 16). rewrite Z.land_ones by lia.
  pose proof (byte_val_range b). apply Z.mod_small. lia.
Qed.

(** [struct.pack(">H", v)] on a value that fits: the two bytes are the
    quotient and the remainder by 256. *)
Lemma struct_pack_H_fits (v : Z) :
  0 <= v <= 65535 ->
  exists hi lo, struct_pack_H v = inr [hi; lo]
                /\ byte_val hi = v / 256 /\ byte_val lo = v mod 256.
Proof.
  intros [Hlo Hhi]. unfold struct_pack_H.
  rewrite (proj2 (Z.leb_le 0 v) Hlo), (proj2 (Z.leb_le v 65535) Hhi). simpl.
  destruct (byte_of_Z_Some (v / 256)) as (hi & Ehi & Vhi).
  { split; [apply Z.div_pos; lia | apply Z.lt_succ_r, Z.div_lt_upper_bound; lia]. }
  destruct (byte_of_Z_Some (v mod 256)) as (lo & Elo & Vlo).
  { pose proof (Z.mod_pos_bound v 256). lia. }
  rewrite Ehi, Elo. eauto.
Qed.

Lemma struct_pack_H_overflow (v : Z) :
  65535 < v -> struct_pack_H v = inl StructError.
Proof.
  intros H. unfold struct_pack_H.
  rewrite (proj2 (Z.leb_gt v 65535) H), andb_false_r. reflexivity.
Qed.

(** ** Address decomposition *)

Lemma addr_h_div (f : DataField) : addr_h f = (address f / 256) mod 256.
Proof.
  unfold addr_h. change 0xFF with (Z.ones 8).
  rewrite Z.land_ones, Z.shiftr_div_pow2 by lia. reflexivity.
Qed.

Lemma addr_l_mod (f : DataField) : addr_l f = address f mod 256.
Proof.
  unfold addr_l. change 0xFF with (Z.ones 8).
  rewrite Z.land_ones by lia. reflexivity.
Qed.

(** C9: for every DataField whose address is in 0..65535 the derived
    bytes recompose the address, [addr_h * 256 + addr_l = address];
    address 0x1234 gives 0x12 and 0x34, and address 0x00FF gives 0x00
    and 0xFF, whatever the other fields hold. *)
Theorem addr_h_addr_l_recompose :
  (forall f : DataField,
      0 <= address f <= 65535 -> addr_h f * 256 + addr_l f = address f)
  /\ (forall len ty descr,
         addr_h (mkDataField 0x1234 len ty descr) = 0x12
         /\ addr_l (mkDataField 0x1234 len ty descr) = 0x34)
  /\ (forall len ty descr,
         addr_h (mkDataField 0x00FF len ty descr) = 0x00
         /\ addr_l (mkDataField 0x00FF len ty descr) = 0xFF).
Proof.
  split; [|split; intros; split; reflexivity].
  intros f Hrange. rewrite addr_h_div, addr_l_mod.
  rewrite (Z.mod_small (address f / 256)).
  - pose proof (Z.div_mod (address f) 256). lia.
  - split; [apply Z.div_pos; lia | apply Z.div_lt_upper_bound; lia].
Qed.

Lemma addr_h_addr_l_recompose_witness :
  addr_h (mkDataField 0xABCD 2 UINT "cell") * 256
  + addr_l (mkDataField 0xABCD 2 UINT "cell") = 0xABCD.
Proof.
  apply (proj1 addr_h_addr_l_recompose (mkDataField 0xABCD 2 UINT "cell")).
  simpl. lia.
Defined.

(** ** Checksum *)

Lemma calculate_checksum_from (payload : list byte) (acc : Z) :
  fold_left (fun checksum byte => checksum + Z.land (byte_val byte) 0xFFFF)
            payload acc
  = acc + foldr Z.add 0 (byte_val <$> payload).
Proof.
  revert acc. induction payload as [|b payload IH]; intros acc.
  - simpl. lia.
  - rewrite fmap_cons. cbn [fold_left foldr].
    rewrite IH, land_byte_val. lia.
Qed.

Lemma calculate_checksum_sum (payload : list byte) :
  calculate_checksum payload = foldr Z.add 0 (byte_val <$> payload).
Proof. unfold calculate_checksum. rewrite calculate_checksum_from. lia. Qed.

Lemma calculate_checksum_nonneg (payload : list byte) :
  0 <= calculate_checksum payload.
Proof.
  rewrite calculate_checksum_sum.
  induction payload as [|b payload IH].
  - reflexivity.
  - rewrite fmap_cons. cbn [foldr]. pose proof (byte_val_range b). lia.
Qed.

(** C7: for every payload [calculate_checksum] is the exact sum of the
    byte values, with no truncation; it is 0 for the empty payload, 1
    for [0x01], 510 for [0xFF, 0xFF], and for some payloads it exceeds
    the 16-bit range. *)
Theorem calculate_checksum_exact :
  (forall payload : list byte,
      calculate_checksum payload = foldr Z.add 0 (byte_val <$> payload))
  /\ calculate_checksum [] = 0
  /\ calculate_checksum [x01] = 1
  /\ calculate_checksum [xff; xff] = 510
  /\ calculate_checksum (replicate 258 xff) = 65790.
Proof.
  split; [exact calculate_checksum_sum|].
  repeat split; vm_compute; reflexivity.
Qed.

(** ** Running store computations *)

Lemma bind_ok {A B : Type} (c : Py A) (k : A -> Py B) (w w' : World) (x : A) :
  c w = (inr x, w') -> (c ≫= k) w = k x w'.
Proof. intros H. unfold mbind, Py_bind. rewrite H. reflexivity. Qed.

Lemma put_object_lookup (self : nat) (o : M18Object) (w : World) :
  objects (put_object self o w) !! self = Some o.
Proof. unfold put_object. simpl. apply lookup_insert_eq. Qed.

Lemma put_object_lookup_ne (self other : nat) (o : M18Object) (w : World) :
  other ≠ self -> objects (put_object self o w) !! other = objects w !! other.
Proof. intros H. unfold put_object. simpl. by apply lookup_insert_ne. Qed.

Lemma put_object_twice (self : nat) (o1 o2 : M18Object) (w : World) :
  put_object self o2 (put_object self o1 w) = put_object self o2 w.
Proof. unfold put_object. simpl. by rewrite insert_insert_eq. Qed.

Lemma getattr_ok (self : nat) (name : string) (w : World) (o : M18Object) (v : bool) :
  objects w !! self = Some o -> lookup_attr o name = Some v ->
  getattr self name w = (inr v, w).
Proof. intros Ho Hv. unfold getattr. rewrite Ho, Hv. reflexivity. Qed.

Lemma setattr_ok (self : nat) (name : string) (v : bool) (w : World) (o : M18Object) :
  objects w !! self = Some o ->
  setattr self name v w = (inr tt, put_object self (assign_attr name v o) w).
Proof. intros Ho. unfold setattr. rewrite Ho. reflexivity. Qed.

Lemma on_port_ok {A : Type} (self : nat) (call : Serial -> A * Serial)
      (w : World) (o : M18Object) :
  objects w !! self = Some o ->
  on_port self call w
  = (inr (call (obj_port o)).1,
     put_object self {| obj_dict := obj_dict o;
                        obj_port := (call (obj_port o)).2 |} w).
Proof. intros Ho. unfold on_port. rewrite Ho. reflexivity. Qed.

Lemma lookup_attr_assign (name : string) (v : bool) (o : M18Object) :
  lookup_attr (assign_attr name v o) name = Some v.
Proof. unfold lookup_attr, assign_attr. simpl. by rewrite lookup_insert_eq. Qed.

Lemma lookup_attr_assign_ne (name name' : string) (v : bool) (o : M18Object) :
  name ≠ name' ->
  lookup_attr (assign_attr name v o) name' = lookup_attr o name'.
Proof.
  intros H. unfold lookup_attr, assign_attr. simpl.
  by rewrite lookup_insert_ne.
Qed.

(** A name declared in the class body can always be read. *)
Lemma lookup_attr_declared (o : M18Object) (name : string) (d : bool) :
  M18_class_dict !! name = Some d -> is_Some (lookup_attr o name).
Proof.
  intros H. unfold lookup_attr. rewrite H.
  destruct (obj_dict o !! name); eauto.
Qed.

Lemma set_txrx_print_ok (self : nat) (enable : bool) (w : World) (o : M18Object) :
  objects w !! self = Some o ->
  set_txrx_print self enable w
  = (inr tt,
     put_object self
       (assign_attr "PRINT_RX" enable (assign_attr "PRINT_TX" enable o)) w).
Proof.
  intros Ho. unfold set_txrx_print.
  rewrite (bind_ok _ _ _ _ _ (setattr_ok self _ _ w o Ho)).
  rewrite (setattr_ok self _ _ _ _ (put_object_lookup self _ w)).
  by rewrite put_object_twice.
Qed.

Lemma save_and_set_txrx_ok (self : nat) (enable tx rx : bool) (w : World) (o : M18Object) :
  objects w !! self = Some o ->
  lookup_attr o "PRINT_TX" = Some tx ->
  lookup_attr o "PRINT_RX" = Some rx ->
  save_and_set_txrx self enable w
  = (inr tt,
     put_object self
       (assign_attr "PRINT_RX" enable (assign_attr "PRINT_TX" enable
         (assign_attr "PRINT_RX_SAVE" rx (assign_attr "PRINT_TX_SAVE" tx o)))) w).
Proof.
  intros Ho Htx Hrx. unfold save_and_set_txrx.
  rewrite (bind_ok _ _ _ _ _ (getattr_ok self _ w o tx Ho Htx)).
  rewrite (bind_ok _ _ _ _ _ (setattr_ok self _ _ w o Ho)).
  erewrite bind_ok; cycle 1.
  { eapply getattr_ok; [apply put_object_lookup|].
    rewrite lookup_attr_assign_ne by done. exact Hrx. }
  erewrite bind_ok; cycle 1.
  { apply setattr_ok, put_object_lookup. }
  rewrite put_object_twice.
  rewrite (set_txrx_print_ok self enable _ _ (put_object_lookup self _ w)).
  by rewrite put_object_twice.
Qed.

Lemma restore_txrx_ok (self : nat) (tx rx : bool) (w : World) (o : M18Object) :
  objects w !! self = Some o ->
  lookup_attr o "PRINT_TX_SAVE" = Some tx ->
  lookup_attr o "PRINT_RX_SAVE" = Some rx ->
  restore_txrx self w
  = (inr tt,
     put_object self (assign_attr "PRINT_RX" rx (assign_attr "PRINT_TX" tx o)) w).
Proof.
  intros Ho Htx Hrx. unfold restore_txrx.
  rewrite (bind_ok _ _ _ _ _ (getattr_ok self _ w o tx Ho Htx)).
  rewrite (bind_ok _ _ _ _ _ (setattr_ok self _ _ w o Ho)).
  erewrite bind_ok; cycle 1.
  { eapply getattr_ok; [apply put_object_lookup|].
    rewrite lookup_attr_assign_ne by done. exact Hrx. }
  rewrite (setattr_ok self _ _ _ _ (put_object_lookup self _ w)).
  by rewrite put_object_twice.
Qed.

(** ** Print flags *)

Lemma getattr_put_object (self : nat) (name : string) (o : M18Object) (w : World) :
  (getattr self name (put_object self o w)).1
  = match lookup_attr o name with
    | Some v => inr v
    | None => inl (AttributeError name)
    end.
Proof.
  unfold getattr. rewrite put_object_lookup.
  destruct (lookup_attr o name); reflexivity.
Qed.

Lemma getattr_put_object_ne (self other : nat) (name : string) (o : M18Object) (w : World) :
  other ≠ self ->
  (getattr other name (put_object self o w)).1 = (getattr other name w).1.
Proof.
  intros H. unfold getattr. rewrite put_object_lookup_ne by done.
  destruct (objects w !! other) as [o'|]; [|reflexivity].
  destruct (lookup_attr o' name); reflexivity.
Qed.

(** C2, as the code has it: [set_txrx_print(enable)] assigns the two
    flags on the calling instance only.  Afterwards that instance reads
    [enable] for PRINT_TX and PRINT_RX, and every other instance reads,
    for every attribute, exactly what it read before the call. *)
Theorem set_txrx_print_instance_local
        (self : nat) (enable : bool) (w : World) (o : M18Object) :
  objects w !! self = Some o ->
  exists w',
    set_txrx_print self enable w = (inr tt, w')
    /\ (getattr self "PRINT_TX" w').1 = inr enable
    /\ (getattr self "PRINT_RX" w').1 = inr enable
    /\ (forall (other : nat) (name : string),
           other ≠ self ->
           (getattr other name w').1 = (getattr other name w).1).
Proof.
  intros Ho. eexists. split; [by apply set_txrx_print_ok|].
  rewrite !getattr_put_object.
  rewrite lookup_attr_assign_ne, !lookup_attr_assign by done.
  repeat split. intros other name Hne. by apply getattr_put_object_ne.
Qed.

Lemma set_txrx_print_instance_local_witness :
  exists w',
    set_txrx_print 0 true two_clients = (inr tt, w')
    /\ (getattr 0 "PRINT_TX" w').1 = inr true
    /\ (getattr 0 "PRINT_RX" w').1 = inr true
    /\ (forall (other : nat) (name : string),
           other ≠ 0%nat ->
           (getattr other name w').1 = (getattr other name two_clients).1).
Proof.
  apply (set_txrx_print_instance_local 0 true two_clients (fresh_instance [])).
  reflexivity.
Defined.

(** C2, as stated, fails: with two clients, after client 0 calls
    [set_txrx_print(True)] client 0 reads True for both flags while
    client 1 still reads False for both. *)
Lemma set_txrx_print_not_shared :
  (getattr 0 "PRINT_TX" (set_txrx_print 0 true two_clients).2).1 = inr true
  /\ (getattr 0 "PRINT_RX" (set_txrx_print 0 true two_clients).2).1 = inr true
  /\ (getattr 1 "PRINT_TX" (set_txrx_print 0 true two_clients).2).1 = inr false
  /\ (getattr 1 "PRINT_RX" (set_txrx_print 0 true two_clients).2).1 = inr false.
Proof. repeat split; vm_compute; reflexivity. Qed.

(** C10: on one instance, [save_and_set_txrx(enable)] followed by
    [restore_txrx()] is a round trip from every starting flag state:
    after the save both flags read [enable] (true in particular), and
    after the restore both read what they read before the save; from
    TX=false/RX=false the final state is TX=false/RX=false again. *)
Theorem save_restore_txrx_round_trip
        (self : nat) (enable : bool) (w : World) (o : M18Object) :
  objects w !! self = Some o ->
  exists w1 w2,
    save_and_set_txrx self enable w = (inr tt, w1)
    /\ (getattr self "PRINT_TX" w1).1 = inr enable
    /\ (getattr self "PRINT_RX" w1).1 = inr enable
    /\ restore_txrx self w1 = (inr tt, w2)
    /\ (getattr self "PRINT_TX" w2).1 = (getattr self "PRINT_TX" w).1
    /\ (getattr self "PRINT_RX" w2).1 = (getattr self "PRINT_RX" w).1
    /\ ((getattr self "PRINT_TX" w).1 = inr false ->
        (getattr self "PRINT_RX" w).1 = inr false ->
        (getattr self "PRINT_TX" w2).1 = inr false
        /\ (getattr self "PRINT_RX" w2).1 = inr false).
Proof.
  intros Ho.
  destruct (lookup_attr_declared o "PRINT_TX" false eq_refl) as [tx Htx].
  destruct (lookup_attr_declared o "PRINT_RX" false eq_refl) as [rx Hrx].
  set (o1 := assign_attr "PRINT_RX" enable (assign_attr "PRINT_TX" enable
              (assign_attr "PRINT_RX_SAVE" rx (assign_attr "PRINT_TX_SAVE" tx o)))).
  assert (Hsave : save_and_set_txrx self enable w = (inr tt, put_object self o1 w))
    by (by apply save_and_set_txrx_ok).
  assert (Hrest : restore_txrx self (put_object self o1 w)
                  = (inr tt, put_object self
                       (assign_attr "PRINT_RX" rx (assign_attr "PRINT_TX" tx o1)) w)).
  { rewrite (restore_txrx_ok self tx rx (put_object self o1 w) o1).
    - by rewrite put_object_twice.
    - apply put_object_lookup.
    - unfold o1. rewrite !lookup_attr_assign_ne by done. apply lookup_attr_assign.
    - unfold o1. rewrite 2!lookup_attr_assign_ne by done. apply lookup_attr_assign. }
  assert (Hw : forall name, (getattr self name w).1
                            = match lookup_attr o name with
                              | Some v => inr v
                              | None => inl (AttributeError name)
                              end).
  { intros name. unfold getattr. rewrite Ho.
    destruct (lookup_attr o name); reflexivity. }
  exists (put_object self o1 w),
    (put_object self (assign_attr "PRINT_RX" rx (assign_attr "PRINT_TX" tx o1)) w).
  split; [exact Hsave|].
  rewrite !getattr_put_object, !Hw, Htx, Hrx. unfold o1.
  repeat first [ rewrite lookup_attr_assign
               | rewrite lookup_attr_assign_ne by done ].
  split_and!; auto.
Qed.

Lemma save_restore_txrx_round_trip_witness :
  exists w1 w2,
    save_and_set_txrx 0 true two_clients = (inr tt, w1)
    /\ (getattr 0 "PRINT_TX" w1).1 = inr true
    /\ (getattr 0 "PRINT_RX" w1).1 = inr true
    /\ restore_txrx 0 w1 = (inr tt, w2)
    /\ (getattr 0 "PRINT_TX" w2).1 = (getattr 0 "PRINT_TX" two_clients).1
    /\ (getattr 0 "PRINT_RX" w2).1 = (getattr 0 "PRINT_RX" two_clients).1
    /\ ((getattr 0 "PRINT_TX" two_clients).1 = inr false ->
        (getattr 0 "PRINT_RX" two_clients).1 = inr false ->
        (getattr 0 "PRINT_TX" w2).1 = inr false
        /\ (getattr 0 "PRINT_RX" w2).1 = inr false).
Proof.
  apply (save_restore_txrx_round_trip 0 true two_clients (fresh_instance [])).
  reflexivity.
Defined.

(** ** Checksummed frames *)

Lemma add_checksum_ok (self ref : nat) (w : World) (data packed : list byte) :
  bytearrays w !! ref = Some data ->
  struct_pack_H (calculate_checksum data) = inr packed ->
  add_checksum self ref w = (inr ref, put_bytearray ref (data ++ packed) w).
Proof.
  intros Hd Hp. unfold add_checksum, mbind, Py_bind, bytearray_get, lift_result,
    bytearray_iadd, mret, Py_ret.
  rewrite Hd, Hp, Hd. reflexivity.
Qed.

Lemma add_checksum_raise (self ref : nat) (w : World) (data : list byte) (e : Exception) :
  bytearrays w !! ref = Some data ->
  struct_pack_H (calculate_checksum data) = inl e ->
  add_checksum self ref w = (inl e, w).
Proof.
  intros Hd Hp. unfold add_checksum, mbind, Py_bind, bytearray_get, lift_result.
  rewrite Hd, Hp. reflexivity.
Qed.

(** C4, as the code has it: for every command whose bytes sum to at most
    65535, [add_checksum] returns the command buffer holding the original
    bytes, unmoved, followed by exactly two bytes: the high then the low
    byte of the sum (which is then its own residue modulo 65536). *)
Theorem add_checksum_appends_sum
        (self ref : nat) (w : World) (data : list byte) :
  bytearrays w !! ref = Some data ->
  foldr Z.add 0 (byte_val <$> data) <= 65535 ->
  exists hi lo,
    add_checksum self ref w = (inr ref, put_bytearray ref (data ++ [hi; lo]) w)
    /\ byte_val hi = foldr Z.add 0 (byte_val <$> data) / 256
    /\ byte_val lo = foldr Z.add 0 (byte_val <$> data) mod 256
    /\ byte_val hi * 256 + byte_val lo
       = foldr Z.add 0 (byte_val <$> data) mod 65536.
Proof.
  intros Hd. rewrite <- calculate_checksum_sum. intros Hsum.
  pose proof (calculate_checksum_nonneg data) as Hpos.
  destruct (struct_pack_H_fits (calculate_checksum data)) as (hi & lo & Hp & Hhi & Hlo);
    [lia|].
  exists hi, lo. split; [by apply add_checksum_ok|].
  split; [exact Hhi|]. split; [exact Hlo|].
  rewrite Hhi, Hlo, (Z.mod_small _ 65536) by lia.
  pose proof (Z.div_mod (calculate_checksum data) 256). lia.
Qed.

Lemma add_checksum_appends_sum_witness :
  exists hi lo,
    add_checksum 0 0 (one_client [] [x62])
    = (inr 0%nat, put_bytearray 0 ([x62] ++ [hi; lo]) (one_client [] [x62]))
    /\ byte_val hi = foldr Z.add 0 (byte_val <$> [x62]) / 256
    /\ byte_val lo = foldr Z.add 0 (byte_val <$> [x62]) mod 256
    /\ byte_val hi * 256 + byte_val lo
       = foldr Z.add 0 (byte_val <$> [x62]) mod 65536.
Proof.
  apply (add_checksum_appends_sum 0 0 (one_client [] [x62]) [x62] eq_refl).
  vm_compute. discriminate.
Defined.

(** Beyond that range nothing is appended: [struct.pack] raises and the
    store is as it was. *)
Lemma add_checksum_overflow (self ref : nat) (w : World) (data : list byte) :
  bytearrays w !! ref = Some data ->
  65535 < foldr Z.add 0 (byte_val <$> data) ->
  add_checksum self ref w = (inl StructError, w).
Proof.
  intros Hd. rewrite <- calculate_checksum_sum. intros Hsum.
  apply add_checksum_raise with data; [exact Hd|].
  by apply struct_pack_H_overflow.
Qed.

(** C4, as stated, fails: 258 bytes of 0xFF sum to 65790, and
    [add_checksum] on them raises [struct.error] and appends nothing,
    where the specification has it append 65790 mod 65536 = 254 as
    0x00 0xFE. *)
Lemma add_checksum_overflow_raises :
  foldr Z.add 0 (byte_val <$> replicate 258 xff) = 65790
  /\ add_checksum 0 0 (one_client [] (replicate 258 xff))
     = (inl StructError, one_client [] (replicate 258 xff)).
Proof. split; vm_compute; reflexivity. Qed.

(** ** Sending *)

(** What [_send] leaves behind: the input discarded, the mirrored bytes
    written, and the logical bytes printed when PRINT_TX reads true. *)
Lemma _send_ok (self message : nat) (w : World) (o : M18Object)
      (data : list byte) (tx : bool) :
  objects w !! self = Some o ->
  bytearrays w !! message = Some data ->
  lookup_attr o "PRINT_TX" = Some tx ->
  _send self message w
  = (inr tt,
     (if tx then put_line ("Sending:  " +:+ hex_join data) else id)
       (put_object self
          {| obj_dict := obj_dict o;
             obj_port := {| in_waiting := [];
                            port_log := port_log (obj_port o)
                                        ++ [PortResetInput;
                                            PortWrite (reverse_bits <$> data)] |} |}
          w)).
Proof.
  intros Ho Hd Htx. unfold _send.
  rewrite (bind_ok _ _ _ _ _ (on_port_ok self _ w o Ho)).
  erewrite bind_ok; cycle 1.
  { unfold bytearray_get, put_object. simpl. rewrite Hd. reflexivity. }
  erewrite bind_ok; cycle 1.
  { eapply getattr_ok; [apply put_object_lookup|]. exact Htx. }
  destruct tx.
  - erewrite bind_ok; [|reflexivity].
    erewrite on_port_ok; cycle 1.
    { unfold put_line. simpl. apply lookup_insert_eq. }
    unfold put_object, put_line. simpl.
    rewrite insert_insert_eq, <- app_assoc. reflexivity.
  - erewrite bind_ok; [|reflexivity].
    erewrite on_port_ok by apply put_object_lookup.
    unfold put_object, id. simpl.
    rewrite insert_insert_eq, <- app_assoc. reflexivity.
Qed.

Lemma send_command_ok (self command : nat) (w : World) (o : M18Object)
      (data packed : list byte) (tx : bool) :
  objects w !! self = Some o ->
  bytearrays w !! command = Some data ->
  lookup_attr o "PRINT_TX" = Some tx ->
  struct_pack_H (calculate_checksum data) = inr packed ->
  send_command self command w
  = (inr tt,
     (if tx then put_line ("Sending:  " +:+ hex_join (data ++ packed)) else id)
       (put_object self
          {| obj_dict := obj_dict o;
             obj_port := {| in_waiting := [];
                            port_log := port_log (obj_port o)
                                        ++ [PortResetInput;
                                            PortWrite (reverse_bits <$> (data ++ packed))] |} |}
          (put_bytearray command (data ++ packed) w))).
Proof.
  intros Ho Hd Htx Hp. unfold send_command.
  rewrite (bind_ok _ _ _ _ _ (add_checksum_ok self command w data packed Hd Hp)).
  apply _send_ok; [exact Ho| |exact Htx].
  unfold put_bytearray. simpl. apply lookup_insert_eq.
Qed.

Lemma written_app (p : Serial) (log : list PortEvent) (more : list PortEvent) :
  port_log p = log ++ more ->
  written p
  = omap (fun e => match e with PortWrite d => Some d | _ => None end) log
    ++ omap (fun e => match e with PortWrite d => Some d | _ => None end) more.
Proof. intros H. unfold written. rewrite H. apply omap_app. Qed.

(** The observable effect of a successful [send_command]: the caller's
    buffer holds the frame, the port has one more write (the mirrored
    frame), and the flags of the instance are as before. *)
Lemma send_command_effect (self command : nat) (w : World) (o : M18Object)
      (data packed : list byte) :
  objects w !! self = Some o ->
  bytearrays w !! command = Some data ->
  struct_pack_H (calculate_checksum data) = inr packed ->
  exists w' o',
    send_command self command w = (inr tt, w')
    /\ bytearrays w' = <[command := data ++ packed]> (bytearrays w)
    /\ objects w' !! self = Some o'
    /\ obj_dict o' = obj_dict o
    /\ written (obj_port o')
       = written (obj_port o) ++ [reverse_bits <$> (data ++ packed)].
Proof.
  intros Ho Hd Hp.
  destruct (lookup_attr_declared o "PRINT_TX" false eq_refl) as [tx Htx].
  eexists _, _. split; [by eapply send_command_ok|].
  split_and!.
  - by destruct tx.
  - destruct tx; apply lookup_insert_eq.
  - reflexivity.
  - erewrite written_app; [|reflexivity]. reflexivity.
Qed.

(** C8: sending the keepalive command [0x62] leaves the logical frame
    [0x62, 0x00, 0x62] in the command buffer, and what is written to the
    port is the bit-reversal of each of these three bytes (0x46, 0x00,
    0x46 on the wire). *)
Theorem send_command_keepalive
        (self command : nat) (w : World) (o : M18Object) :
  objects w !! self = Some o ->
  bytearrays w !! command = Some [x62] ->
  exists w' o',
    send_command self command w = (inr tt, w')
    /\ byte_val x62 = KEEPALIVE_CMD
    /\ bytearrays w' !! command = Some [x62; x00; x62]
    /\ objects w' !! self = Some o'
    /\ written (obj_port o')
       = written (obj_port o) ++ [reverse_bits <$> [x62; x00; x62]]
    /\ reverse_bits <$> [x62; x00; x62] = [x46; x00; x46].
Proof.
  intros Ho Hd.
  destruct (send_command_effect self command w o [x62] [x00; x62] Ho Hd eq_refl)
    as (w' & o' & Hrun & Hbuf & Ho' & _ & Hwr).
  exists w', o'. split_and!; try done.
  rewrite Hbuf. apply lookup_insert_eq.
Qed.

Lemma send_command_keepalive_witness :
  exists w' o',
    send_command 0 0 (one_client [] [x62]) = (inr tt, w')
    /\ byte_val x62 = KEEPALIVE_CMD
    /\ bytearrays w' !! 0%nat = Some [x62; x00; x62]
    /\ objects w' !! 0%nat = Some o'
    /\ written (obj_port o')
       = written (obj_port (fresh_instance [])) ++ [reverse_bits <$> [x62; x00; x62]]
    /\ reverse_bits <$> [x62; x00; x62] = [x46; x00; x46].
Proof.
  apply (send_command_keepalive 0 0 (one_client [] [x62]) (fresh_instance []));
    reflexivity.
Defined.

Lemma send_command_raise (self command : nat) (w : World) (data : list byte)
      (e : Exception) :
  bytearrays w !! command = Some data ->
  struct_pack_H (calculate_checksum data) = inl e ->
  send_command self command w = (inl e, w).
Proof.
  intros Hd Hp. unfold send_command.
  unfold mbind, Py_bind. by rewrite (add_checksum_raise self command w data e Hd Hp).
Qed.

(** C5: [add_checksum] extends the very bytearray it was given: what it
    returns is the reference it received, and the store holds under that
    same identity the old content followed by two bytes, the high and
    the low byte of the sum of the old content.  So after
    [send_command(command)] has returned, the caller's buffer holds the
    command followed by those two bytes, and a second [send_command] on
    the same buffer works on that extended frame: its checksum is the sum
    over the extended frame, appended and sent with it when it fits 16
    bits, and the cause of [struct.error] when it does not. *)
Theorem send_command_extends_callers_buffer
        (self command : nat) (w : World) (o : M18Object) (data : list byte) :
  objects w !! self = Some o ->
  bytearrays w !! command = Some data ->
  (forall (ref : nat) (w1 : World),
      add_checksum self command w = (inr ref, w1) ->
      ref = command
      /\ exists hi lo,
          w1 = put_bytearray command (data ++ [hi; lo]) w
          /\ byte_val hi = foldr Z.add 0 (byte_val <$> data) / 256
          /\ byte_val lo = foldr Z.add 0 (byte_val <$> data) mod 256)
  /\ (forall w2 : World,
         send_command self command w = (inr tt, w2) ->
         exists hi lo,
           byte_val hi = foldr Z.add 0 (byte_val <$> data) / 256
           /\ byte_val lo = foldr Z.add 0 (byte_val <$> data) mod 256
           /\ bytearrays w2 !! command = Some (data ++ [hi; lo])
           /\ (foldr Z.add 0 (byte_val <$> data ++ [hi; lo]) <= 65535 ->
               exists hi' lo' w3 o3,
                 send_command self command w2 = (inr tt, w3)
                 /\ byte_val hi' = foldr Z.add 0 (byte_val <$> data ++ [hi; lo]) / 256
                 /\ byte_val lo' = foldr Z.add 0 (byte_val <$> data ++ [hi; lo]) mod 256
                 /\ bytearrays w3 !! command = Some ((data ++ [hi; lo]) ++ [hi'; lo'])
                 /\ objects w3 !! self = Some o3
                 /\ last (written (obj_port o3))
                    = Some (reverse_bits <$> (data ++ [hi; lo]) ++ [hi'; lo']))
           /\ (65535 < foldr Z.add 0 (byte_val <$> data ++ [hi; lo]) ->
               send_command self command w2 = (inl StructError, w2))).
Proof.
  intros Ho Hd.
  destruct (Z_le_gt_dec (calculate_checksum data) 65535) as [Hle|Hgt].
  - pose proof (calculate_checksum_nonneg data) as Hpos.
    destruct (struct_pack_H_fits (calculate_checksum data))
      as (hi & lo & Hp1 & Hhi & Hlo); [lia|].
    rewrite calculate_checksum_sum in Hhi, Hlo.
    split.
    + intros ref w1. rewrite (add_checksum_ok self command w data [hi; lo] Hd Hp1).
      intros [= <- <-]. split; [reflexivity|]. by exists hi, lo.
    + intros w2 Hrun.
      destruct (send_command_effect self command w o data [hi; lo] Ho Hd Hp1)
        as (w2' & o2 & Hrun2 & Hbuf2 & Ho2 & _ & _).
      assert (w2 = w2') as -> by congruence. clear Hrun.
      assert (Hd2 : bytearrays w2' !! command = Some (data ++ [hi; lo]))
        by (rewrite Hbuf2; apply lookup_insert_eq).
      exists hi, lo. split_and!; try done.
      * rewrite <- calculate_checksum_sum. intros Hle2.
        pose proof (calculate_checksum_nonneg (data ++ [hi; lo])) as Hpos2.
        destruct (struct_pack_H_fits (calculate_checksum (data ++ [hi; lo])))
          as (hi' & lo' & Hp2 & Hhi' & Hlo'); [lia|].
        destruct (send_command_effect self command w2' o2 (data ++ [hi; lo])
                    [hi'; lo'] Ho2 Hd2 Hp2)
          as (w3 & o3 & Hrun3 & Hbuf3 & Ho3 & _ & Hwr3).
        exists hi', lo', w3, o3. split_and!; try done.
        -- rewrite Hbuf3. apply lookup_insert_eq.
        -- rewrite Hwr3. apply last_snoc.
      * rewrite <- calculate_checksum_sum. intros Hgt2.
        apply send_command_raise with (data ++ [hi; lo]); [exact Hd2|].
        apply struct_pack_H_overflow. lia.
  - assert (Hp : struct_pack_H (calculate_checksum data) = inl StructError)
      by (apply struct_pack_H_overflow; lia).
    split.
    + intros ref w1. rewrite (add_checksum_raise self command w data _ Hd Hp).
      intros [=].
    + intros w2. rewrite (send_command_raise self command w data _ Hd Hp).
      intros [=].
Qed.

Lemma send_command_extends_callers_buffer_witness :
  exists hi lo,
    byte_val hi = foldr Z.add 0 (byte_val <$> [x62]) / 256
    /\ byte_val lo = foldr Z.add 0 (byte_val <$> [x62]) mod 256
    /\ bytearrays (send_command 0 0 (one_client [] [x62])).2 !! 0%nat
       = Some ([x62] ++ [hi; lo])
    /\ (foldr Z.add 0 (byte_val <$> [x62] ++ [hi; lo]) <= 65535 ->
        exists hi' lo' w3 o3,
          send_command 0 0 (send_command 0 0 (one_client [] [x62])).2 = (inr tt, w3)
          /\ byte_val hi' = foldr Z.add 0 (byte_val <$> [x62] ++ [hi; lo]) / 256
          /\ byte_val lo' = foldr Z.add 0 (byte_val <$> [x62] ++ [hi; lo]) mod 256
          /\ bytearrays w3 !! 0%nat = Some (([x62] ++ [hi; lo]) ++ [hi'; lo'])
          /\ objects w3 !! 0%nat = Some o3
          /\ last (written (obj_port o3))
             = Some (reverse_bits <$> ([x62] ++ [hi; lo]) ++ [hi'; lo']))
    /\ (65535 < foldr Z.add 0 (byte_val <$> [x62] ++ [hi; lo]) ->
        send_command 0 0 (send_command 0 0 (one_client [] [x62])).2
        = (inl StructError, (send_command 0 0 (one_client [] [x62])).2)).
Proof.
  apply (proj2 (send_command_extends_callers_buffer
                  0 0 (one_client [] [x62]) (fresh_instance []) [x62]
                  eq_refl eq_refl)
               (send_command 0 0 (one_client [] [x62])).2).
  reflexivity.
Defined.

(** ** Receiving *)

(** What [read_response] does once a first byte has arrived: a second
    read for 1 byte or for [size - 1] bytes, decided by the first byte,
    then the mirrored bytes returned, and printed when PRINT_RX reads
    true. *)
Lemma read_response_ok (self : nat) (size : Z) (w : World) (o : M18Object)
      (first : byte) (rest : list byte) (rx : bool) :
  objects w !! self = Some o ->
  in_waiting (obj_port o) = first :: rest ->
  lookup_attr o "PRINT_RX" = Some rx ->
  let n := if byte_val (reverse_bits first) =? 0x82 then 1 else size - 1 in
  let more := take (Z.to_nat n) rest in
  read_response self size w
  = (inr (reverse_bits <$> first :: more),
     (if rx then put_line ("Received: " +:+ hex_join (reverse_bits <$> first :: more))
      else id)
       (put_object self
          {| obj_dict := obj_dict o;
             obj_port := {| in_waiting := drop (Z.to_nat n) rest;
                            port_log := port_log (obj_port o)
                                        ++ [PortRead 1 [first]; PortRead n more] |} |}
          w)).
Proof.
  intros Ho Hin Hrx. cbv zeta. unfold read_response.
  assert (Hfirst : (Serial_read 1 (obj_port o)).1 = [first])
    by (unfold Serial_read; rewrite Hin; reflexivity).
  rewrite (bind_ok _ _ _ _ _ (on_port_ok self _ w o Ho)), Hfirst.
  cbv beta iota.
  assert (Hmore : forall k,
             on_port self (Serial_read k)
               (put_object self
                  {| obj_dict := obj_dict o;
                     obj_port := (Serial_read 1 (obj_port o)).2 |} w)
             = (inr (take (Z.to_nat k) rest),
                put_object self
                  {| obj_dict := obj_dict o;
                     obj_port := {| in_waiting := drop (Z.to_nat k) rest;
                                    port_log := port_log (obj_port o)
                                                ++ [PortRead 1 [first];
                                                    PortRead k (take (Z.to_nat k) rest)] |} |}
                  w)).
  { intros k. rewrite (on_port_ok self _ _ _ (put_object_lookup self _ w)).
    rewrite put_object_twice. unfold Serial_read. rewrite Hin.
    cbn. rewrite <- app_assoc. reflexivity. }
  destruct (byte_val (reverse_bits first) =? 0x82);
    rewrite (bind_ok _ _ _ _ _ (Hmore _));
    (erewrite bind_ok;
       [|eapply getattr_ok; [apply put_object_lookup|exact Hrx]]);
    destruct rx; (erewrite bind_ok; [|reflexivity]); reflexivity.
Qed.

(** C1, as the code has it: when a first byte arrives, [read_response]
    returns one logical byte for it plus one for each byte the second
    read obtains, and that read obtains the bytes arriving in time up to
    the number asked for: 1 when the first byte mirrors to 0x82, and
    size - 1 otherwise.  The result is therefore exactly 2 bytes in the
    first case when one more byte arrives, and exactly [size] bytes in
    the second when [size >= 1] and [size - 1] more bytes arrive. *)
Theorem read_response_length
        (self : nat) (size : Z) (w : World) (o : M18Object)
        (first : byte) (rest : list byte) :
  objects w !! self = Some o ->
  in_waiting (obj_port o) = first :: rest ->
  exists resp w',
    read_response self size w = (inr resp, w')
    /\ length resp
       = S (Nat.min (Z.to_nat (if byte_val (reverse_bits first) =? 0x82
                               then 1 else size - 1))
                    (length rest))
    /\ (byte_val (reverse_bits first) = 0x82 ->
        (1 <= length rest)%nat -> length resp = 2%nat)
    /\ (byte_val (reverse_bits first) <> 0x82 ->
        1 <= size -> size - 1 <= Z.of_nat (length rest) ->
        Z.of_nat (length resp) = size).
Proof.
  intros Ho Hin.
  destruct (lookup_attr_declared o "PRINT_RX" false eq_refl) as [rx Hrx].
  eexists _, _. split; [by eapply read_response_ok|].
  rewrite length_fmap. cbn [length]. rewrite length_take.
  split_and!.
  - reflexivity.
  - intros Hs Hlen. rewrite Hs, Z.eqb_refl. lia.
  - intros Hs H1 Hlen. apply Z.eqb_neq in Hs. rewrite Hs. lia.
Qed.

Lemma read_response_length_witness :
  exists resp w',
    read_response 0 3 (one_client [x80; x02; x03; x04] []) = (inr resp, w')
    /\ length resp
       = S (Nat.min (Z.to_nat (if byte_val (reverse_bits x80) =? 0x82
                               then 1 else 3 - 1))
                    (length [x02; x03; x04]))
    /\ (byte_val (reverse_bits x80) = 0x82 ->
        (1 <= length [x02; x03; x04])%nat -> length resp = 2%nat)
    /\ (byte_val (reverse_bits x80) <> 0x82 ->
        1 <= 3 -> 3 - 1 <= Z.of_nat (length [x02; x03; x04]) ->
        Z.of_nat (length resp) = 3).
Proof.
  apply (read_response_length 0 3 (one_client [x80; x02; x03; x04] [])
           (fresh_instance [x80; x02; x03; x04]) x80 [x02; x03; x04]);
    reflexivity.
Defined.

(** C1, as stated, fails.  On a short read with [size = 10]: when only
    the raw byte 0x80 (logical 0x01) arrives the result is that one
    logical byte, not 10; and when only the raw byte 0x41 (logical 0x82)
    arrives the result is one byte, not 2.  And with [size = 0] and
    bytes to spare the result still holds the first byte, so it is one
    byte long, not 0. *)
Lemma read_response_short_read :
  (read_response 0 10 (one_client [x80] [])).1 = inr [x01]
  /\ length [x01] <> 10%nat
  /\ (read_response 0 10 (one_client [x41] [])).1 = inr [x82]
  /\ length [x82] <> 2%nat
  /\ (read_response 0 0 (one_client [x80; x02; x03] [])).1 = inr [x01]
  /\ length [x01] <> 0%nat.
Proof. split_and!; try (vm_compute; reflexivity); simpl; lia. Qed.

(** C3: when the transport yields nothing to the first read,
    [read_response] raises [ValueError("Empty response")] having made
    that single one-byte read and no other call on the port; whenever
    the first read yields a byte, it raises nothing and returns. *)
Theorem read_response_empty_response
        (self : nat) (size : Z) (w : World) (o : M18Object) :
  objects w !! self = Some o ->
  (in_waiting (obj_port o) = [] ->
   read_response self size w
   = (inl (ValueError "Empty response"),
      put_object self
        {| obj_dict := obj_dict o;
           obj_port := {| in_waiting := [];
                          port_log := port_log (obj_port o) ++ [PortRead 1 []] |} |}
        w))
  /\ (in_waiting (obj_port o) <> [] ->
      exists resp w', read_response self size w = (inr resp, w')).
Proof.
  intros Ho. split.
  - intros Hin. unfold read_response.
    rewrite (bind_ok _ _ _ _ _ (on_port_ok self _ w o Ho)).
    unfold Serial_read. rewrite Hin. reflexivity.
  - intros Hin. destruct (in_waiting (obj_port o)) as [|first rest] eqn:E; [done|].
    destruct (lookup_attr_declared o "PRINT_RX" false eq_refl) as [rx Hrx].
    rewrite (read_response_ok self size w o first rest rx Ho E Hrx). eauto.
Qed.

Lemma read_response_empty_response_witness :
  read_response 0 10 (one_client [] [])
  = (inl (ValueError "Empty response"),
     put_object 0
       {| obj_dict := obj_dict (fresh_instance []);
          obj_port := {| in_waiting := [];
                         port_log := port_log (obj_port (fresh_instance []))
                                     ++ [PortRead 1 []] |} |}
       (one_client [] [])).
Proof.
  apply (proj1 (read_response_empty_response 0 10 (one_client [] [])
                  (fresh_instance []) eq_refl)).
  reflexivity.
Defined.

(** ** Port selection *)

Section PortSelectorFacts.

Variable int : string -> option Z.

(** With no port listed the bound [i] stays 1 and the loop condition
    holds of every integer. *)
Lemma no_port_loop_condition (port_id : Z) :
  (port_id <? 1) || (port_id >=? 1) = true.
Proof.
  destruct (port_id <? 1) eqn:E; [reflexivity|].
  apply Z.ltb_ge in E. simpl. apply Z.geb_le. lia.
Qed.

(** So the loop goes through every typed line and is still asking when
    they run out. *)
Lemma selection_loop_no_port (lines : list string) :
  forall (port_id : Z) (shown_ : list string),
    exists c, selection_loop int 1 port_id lines shown_ = (inl EOFError, c)
              /\ stdin c = [].
Proof.
  induction lines as [|user_port lines IH]; intros port_id shown_.
  - simpl. rewrite no_port_loop_condition. eauto.
  - cbn [selection_loop]. rewrite no_port_loop_condition.
    destruct (int user_port) as [n|]; apply IH.
Qed.

(** C6: with zero ports enumerated no selection ends the validation
    loop (its condition holds of every integer), and for every sequence
    of typed lines [prompt_com_port_selection] does not return: all the
    lines are consumed and the call ends in the [EOFError] of an
    exhausted input, never in a device. *)
Theorem prompt_com_port_selection_no_port (c : Console) :
  (list_ports_loop 1 [] c).1 = 1
  /\ (forall port_id : Z, (port_id <? 1) || (port_id >=? 1) = true)
  /\ (exists c', prompt_com_port_selection int [] c = (inl EOFError, c')
                 /\ stdin c' = [])
  /\ (forall (dev : string) (c' : Console),
         prompt_com_port_selection int [] c <> (inr dev, c')).
Proof.
  assert (Hrun : exists c', prompt_com_port_selection int [] c = (inl EOFError, c')
                            /\ stdin c' = []).
  { unfold prompt_com_port_selection. cbn [list_ports_loop].
    match goal with
    | |- context [selection_loop int 1 0 ?l ?s] =>
        destruct (selection_loop_no_port l 0 s) as (c' & -> & Hc')
    end.
    eauto. }
  split_and!; [reflexivity | exact no_port_loop_condition | exact Hrun |].
  intros dev c'. destruct Hrun as (c'' & -> & _). discriminate.
Qed.

(** With the ports [/devA] and [/devB] listed, the lines [x], [0], [3],
    [2] and a final Enter select the second port: three attempts are
    turned down, the fourth is taken. *)
Lemma prompt_com_port_selection_second_port (mA dA mB dB : string) :
  int "x" = None -> int "0" = Some 0 -> int "3" = Some 3 -> int "2" = Some 2 ->
  (prompt_com_port_selection int
     [mkListPortInfo "/devA" mA dA; mkListPortInfo "/devB" mB dB]
     {| stdin := ["x"; "0"; "3"; "2"; "ok"]%string; shown := [] |}).1
  = inr "/devB"%string.
Proof.
  intros Hx H0 H3 H2. unfold prompt_com_port_selection.
  cbn [list_ports_loop show stdin shown].
  cbn -[pretty String.app]. rewrite Hx. cbn -[pretty String.app]. rewrite H0.
  cbn -[pretty String.app]. rewrite H3. cbn -[pretty String.app]. rewrite H2.
  cbn -[pretty String.app]. reflexivity.
Qed.

End PortSelectorFacts.

(** * Further properties *)

(** ** Address bytes of any address *)

(** X1: whatever integer the address is (nothing validates it), both
    derived bytes are bytes: each lies in 0..255. *)
Theorem addr_bytes_in_range (f : DataField) :
  0 <= addr_h f <= 255 /\ 0 <= addr_l f <= 255.
Proof.
  rewrite addr_h_div, addr_l_mod.
  pose proof (Z.mod_pos_bound (address f / 256) 256).
  pose proof (Z.mod_pos_bound (address f) 256). lia.
Qed.

(** X2: for every integer address the two bytes recompose the low 16
    bits of the address: an address outside 0..65535 is silently reduced
    modulo 65536 (a negative one included). *)
Theorem addr_bytes_recompose_mod (f : DataField) :
  addr_h f * 256 + addr_l f = address f mod 65536.
Proof.
  rewrite addr_h_div, addr_l_mod.
  change 65536 with (256 * 256). rewrite Z.rem_mul_r by lia. lia.
Qed.

(** ** Checksum arithmetic *)

(** X3: the checksum of a concatenation is the sum of the checksums of
    its parts. *)
Theorem calculate_checksum_concat (a b : list byte) :
  calculate_checksum (a ++ b) = calculate_checksum a + calculate_checksum b.
Proof.
  unfold calculate_checksum. rewrite fold_left_app, !calculate_checksum_from. lia.
Qed.

(** X4: the checksum is never negative and never more than 255 per byte
    of payload. *)
Theorem calculate_checksum_bounds (payload : list byte) :
  0 <= calculate_checksum payload <= 255 * Z.of_nat (length payload).
Proof.
  rewrite calculate_checksum_sum.
  induction payload as [|b payload IH].
  - simpl. lia.
  - rewrite fmap_cons. cbn [foldr length].
    pose proof (byte_val_range b). lia.
Qed.

(** X5: the checksum does not see the order of the bytes: a payload and
    any rearrangement of it have the same checksum. *)
Theorem calculate_checksum_permutation (p q : list byte) :
  p ≡ₚ q -> calculate_checksum p = calculate_checksum q.
Proof.
  intros H. rewrite !calculate_checksum_sum.
  induction H as [|x p q _ IH|x y p|p q r _ IH1 _ IH2].
  - reflexivity.
  - rewrite !fmap_cons. cbn [foldr]. lia.
  - rewrite !fmap_cons. cbn [foldr]. lia.
  - congruence.
Qed.

Lemma calculate_checksum_permutation_witness :
  calculate_checksum [x60; x12; x34] = calculate_checksum [x12; x60; x34].
Proof.
  apply (calculate_checksum_permutation [x60; x12; x34] [x12; x60; x34]).
  apply perm_swap.
Defined.

(** ** Appending the checksum *)

(** X6: a command of at most 257 bytes always gets its checksum: the
    call returns the buffer it was given, grown by exactly two bytes,
    whatever the bytes are. *)
Theorem add_checksum_short_command
        (self ref : nat) (w : World) (data : list byte) :
  bytearrays w !! ref = Some data ->
  (length data <= 257)%nat ->
  exists hi lo,
    add_checksum self ref w = (inr ref, put_bytearray ref (data ++ [hi; lo]) w).
Proof.
  intros Hd Hlen.
  assert (Hb : 0 <= calculate_checksum data <= 255 * Z.of_nat (length data)).
  { rewrite calculate_checksum_sum. clear.
    induction data as [|b data IH]; [simpl; lia|].
    rewrite fmap_cons. cbn [foldr length]. pose proof (byte_val_range b). lia. }
  destruct (struct_pack_H_fits (calculate_checksum data)) as (hi & lo & Hp & _);
    [lia|].
  exists hi, lo. by apply add_checksum_ok.
Qed.

Lemma add_checksum_short_command_witness :
  exists hi lo,
    add_checksum 0 0 (one_client [] (replicate 257 xff))
    = (inr 0%nat,
       put_bytearray 0 (replicate 257 xff ++ [hi; lo])
         (one_client [] (replicate 257 xff))).
Proof.
  apply (add_checksum_short_command 0 0 (one_client [] (replicate 257 xff))
           (replicate 257 xff)).
  - reflexivity.
  - vm_compute. lia.
Defined.

(** X7: on an existing buffer [add_checksum] raises exactly when the
    bytes sum to more than 65535; what it raises is [struct.error], and
    the store is then exactly as before the call. *)
Theorem add_checksum_raises_iff
        (self ref : nat) (w : World) (data : list byte) :
  bytearrays w !! ref = Some data ->
  ((exists e w', add_checksum self ref w = (inl e, w'))
   <-> 65535 < foldr Z.add 0 (byte_val <$> data))
  /\ (forall e w', add_checksum self ref w = (inl e, w') ->
                   e = StructError /\ w' = w).
Proof.
  intros Hd. rewrite <- calculate_checksum_sum.
  destruct (Z_le_gt_dec (calculate_checksum data) 65535) as [Hle|Hgt].
  - pose proof (calculate_checksum_nonneg data) as Hpos.
    destruct (struct_pack_H_fits (calculate_checksum data)) as (hi & lo & Hp & _);
      [lia|].
    rewrite (add_checksum_ok self ref w data [hi; lo] Hd Hp).
    split; [split|]; [intros (e & w' & [=]) | lia | intros e w' [=]].
  - rewrite (add_checksum_raise self ref w data StructError Hd)
      by (apply struct_pack_H_overflow; lia).
    split; [split; [lia | eauto]|].
    intros e w' [= <- <-]. done.
Qed.

Lemma add_checksum_raises_iff_witness :
  ((exists e w', add_checksum 0 0 (one_client [] (replicate 258 xff)) = (inl e, w'))
   <-> 65535 < foldr Z.add 0 (byte_val <$> replicate 258 xff))
  /\ (forall e w',
         add_checksum 0 0 (one_client [] (replicate 258 xff)) = (inl e, w') ->
         e = StructError /\ w' = one_client [] (replicate 258 xff)).
Proof.
  apply (add_checksum_raises_iff 0 0 (one_client [] (replicate 258 xff))
           (replicate 258 xff)).
  reflexivity.
Defined.

(** X8: whether it succeeds or raises, [add_checksum] touches nothing
    but the buffer it was given: the clients, the printed lines and
    every other bytearray are as before. *)
Theorem add_checksum_frame (self ref : nat) (w : World) :
  objects (add_checksum self ref w).2 = objects w
  /\ stdout (add_checksum self ref w).2 = stdout w
  /\ (forall other : nat,
         other ≠ ref ->
         bytearrays (add_checksum self ref w).2 !! other = bytearrays w !! other).
Proof.
  unfold add_checksum, mbind, Py_bind, bytearray_get, lift_result,
    bytearray_iadd, mret, Py_ret.
  destruct (bytearrays w !! ref) as [data|] eqn:Hd; [|done].
  destruct (struct_pack_H (calculate_checksum data)) as [e|packed]; [done|].
  rewrite Hd. cbn. split_and!; try done.
  intros other Hne. by rewrite lookup_insert_ne.
Qed.

(** ** Sending: port, buffer and printed lines *)

(** X9: [_send] makes two calls on the port, in this order: the reset
    of the input buffer, then a single write of one wire byte per
    message byte.  The message buffer, the other bytearrays and the
    flags of the instance are as before. *)
Theorem _send_port_effect
        (self message : nat) (w : World) (o : M18Object) (data : list byte) :
  objects w !! self = Some o ->
  bytearrays w !! message = Some data ->
  exists w' o',
    _send self message w = (inr tt, w')
    /\ objects w' !! self = Some o'
    /\ port_log (obj_port o')
       = port_log (obj_port o) ++ [PortResetInput; PortWrite (reverse_bits <$> data)]
    /\ length (reverse_bits <$> data) = length data
    /\ obj_dict o' = obj_dict o
    /\ bytearrays w' = bytearrays w.
Proof.
  intros Ho Hd.
  destruct (lookup_attr_declared o "PRINT_TX" false eq_refl) as [tx Htx].
  eexists _, _. split; [by eapply _send_ok|].
  split_and!.
  - destruct tx; apply lookup_insert_eq.
  - reflexivity.
  - apply length_fmap.
  - reflexivity.
  - by destruct tx.
Qed.

Lemma _send_port_effect_witness :
  exists w' o',
    _send 0 0 (one_client [x01; x02] [x62; x00; x62]) = (inr tt, w')
    /\ objects w' !! 0%nat = Some o'
    /\ port_log (obj_port o')
       = port_log (obj_port (fresh_instance [x01; x02]))
         ++ [PortResetInput; PortWrite (reverse_bits <$> [x62; x00; x62])]
    /\ length (reverse_bits <$> [x62; x00; x62]) = length [x62; x00; x62]
    /\ obj_dict o' = obj_dict (fresh_instance [x01; x02])
    /\ bytearrays w' = bytearrays (one_client [x01; x02] [x62; x00; x62]).
Proof.
  apply (_send_port_effect 0 0 (one_client [x01; x02] [x62; x00; x62])
           (fresh_instance [x01; x02]) [x62; x00; x62]); reflexivity.
Defined.

(** The store after [set_txrx_print], as [send_command] and
    [read_response] find it. *)
Lemma set_txrx_print_then {A : Type} (self : nat) (enable : bool) (k : Py A)
      (w : World) (o : M18Object) :
  objects w !! self = Some o ->
  (set_txrx_print self enable ;; k) w
  = k (put_object self
         (assign_attr "PRINT_RX" enable (assign_attr "PRINT_TX" enable o)) w).
Proof.
  intros Ho. by rewrite (bind_ok _ _ _ _ _ (set_txrx_print_ok self enable w o Ho)).
Qed.

(** X10: after [set_txrx_print(enable)], [send_command] prints exactly
    one line when [enable] is true, the label followed by the logical
    frame in hex with its checksum bytes (not the wire bytes), and
    prints nothing when [enable] is false. *)
Theorem send_command_prints_when_enabled
        (self command : nat) (enable : bool) (w : World) (o : M18Object)
        (data packed : list byte) :
  objects w !! self = Some o ->
  bytearrays w !! command = Some data ->
  struct_pack_H (calculate_checksum data) = inr packed ->
  exists w',
    (set_txrx_print self enable ;; send_command self command) w = (inr tt, w')
    /\ stdout w'
       = stdout w
         ++ (if enable then ["Sending:  " +:+ hex_join (data ++ packed)] else []).
Proof.
  intros Ho Hd Hp. rewrite (set_txrx_print_then self enable _ w o Ho).
  erewrite send_command_ok; cycle 1.
  - apply put_object_lookup.
  - exact Hd.
  - rewrite lookup_attr_assign_ne by done. apply lookup_attr_assign.
  - exact Hp.
  - eexists. split; [reflexivity|].
    destruct enable; cbn; [reflexivity | by rewrite app_nil_r].
Qed.

Lemma send_command_prints_when_enabled_witness :
  exists w',
    (set_txrx_print 0 true ;; send_command 0 0) (one_client [] [x62]) = (inr tt, w')
    /\ stdout w'
       = stdout (one_client [] [x62])
         ++ (if true then ["Sending:  " +:+ hex_join ([x62] ++ [x00; x62])] else []).
Proof.
  apply (send_command_prints_when_enabled 0 0 true (one_client [] [x62])
           (fresh_instance []) [x62] [x00; x62]); reflexivity.
Defined.

(** X11: when the bytes of the command sum to more than 65535,
    [send_command] raises [struct.error] before anything else happens:
    the store is exactly as before, so the port's input was not
    discarded, nothing was written and nothing was printed. *)
Theorem send_command_overflow_untouched
        (self command : nat) (w : World) (data : list byte) :
  bytearrays w !! command = Some data ->
  65535 < foldr Z.add 0 (byte_val <$> data) ->
  send_command self command w = (inl StructError, w).
Proof.
  intros Hd. rewrite <- calculate_checksum_sum. intros Hsum.
  unfold send_command, mbind, Py_bind.
  rewrite (add_checksum_raise self command w data StructError Hd)
    by (by apply struct_pack_H_overflow).
  reflexivity.
Qed.

Lemma send_command_overflow_untouched_witness :
  send_command 0 0 (one_client [x01] (replicate 258 xff))
  = (inl StructError, one_client [x01] (replicate 258 xff)).
Proof.
  apply (send_command_overflow_untouched 0 0 (one_client [x01] (replicate 258 xff))
           (replicate 258 xff)).
  - reflexivity.
  - vm_compute. reflexivity.
Defined.

(** X12: a client on which no flag was ever assigned sends silently:
    PRINT_TX falls back to the class value False and [send_command]
    prints nothing. *)
Theorem send_command_silent_by_default
        (self command : nat) (w : World) (o : M18Object)
        (data packed : list byte) :
  objects w !! self = Some o ->
  obj_dict o !! "PRINT_TX" = None ->
  bytearrays w !! command = Some data ->
  struct_pack_H (calculate_checksum data) = inr packed ->
  exists w', send_command self command w = (inr tt, w') /\ stdout w' = stdout w.
Proof.
  intros Ho Hflag Hd Hp.
  erewrite (send_command_ok self command w o data packed false); try done.
  - eauto.
  - unfold lookup_attr. rewrite Hflag. reflexivity.
Qed.

Lemma send_command_silent_by_default_witness :
  exists w',
    send_command 0 0 (one_client [] [x62]) = (inr tt, w')
    /\ stdout w' = stdout (one_client [] [x62]).
Proof.
  apply (send_command_silent_by_default 0 0 (one_client [] [x62])
           (fresh_instance []) [x62] [x00; x62]); reflexivity.
Defined.

(** ** Receiving: what is consumed, what is left *)

Lemma read_response_nothing (self : nat) (size : Z) (w : World) (o : M18Object) :
  objects w !! self = Some o ->
  in_waiting (obj_port o) = [] ->
  read_response self size w
  = (inl (ValueError "Empty response"),
     put_object self
       {| obj_dict := obj_dict o;
          obj_port := {| in_waiting := [];
                         port_log := port_log (obj_port o) ++ [PortRead 1 []] |} |}
       w).
Proof.
  intros Ho Hin. unfold read_response.
  rewrite (bind_ok _ _ _ _ _ (on_port_ok self _ w o Ho)).
  unfold Serial_read. rewrite Hin. reflexivity.
Qed.

Lemma take_length_take {A : Type} (n : nat) (l : list A) :
  take (length (take n l)) l = take n l.
Proof.
  rewrite length_take. destruct (Nat.min_spec n (length l)) as [[_ ->]|[Hle ->]].
  - reflexivity.
  - rewrite !take_ge by lia. reflexivity.
Qed.

Lemma drop_length_take {A : Type} (n : nat) (l : list A) :
  drop (length (take n l)) l = drop n l.
Proof.
  rewrite length_take. destruct (Nat.min_spec n (length l)) as [[_ ->]|[Hle ->]].
  - reflexivity.
  - rewrite !drop_ge by lia. reflexivity.
Qed.

(** X13: a response is never empty, and [read_response] takes from the
    port exactly the bytes it returns: the response is the mirror of the
    first bytes that were on their way, in order, and the bytes behind
    them are still pending for the next read. *)
Theorem read_response_consumes_what_it_returns
        (self : nat) (size : Z) (w w' : World) (o : M18Object) (resp : list byte) :
  objects w !! self = Some o ->
  read_response self size w = (inr resp, w') ->
  exists o',
    objects w' !! self = Some o'
    /\ resp <> []
    /\ resp = reverse_bits <$> take (length resp) (in_waiting (obj_port o))
    /\ in_waiting (obj_port o') = drop (length resp) (in_waiting (obj_port o)).
Proof.
  intros Ho Hrun.
  destruct (in_waiting (obj_port o)) as [|first rest] eqn:Hin.
  { rewrite (read_response_nothing self size w o Ho Hin) in Hrun. discriminate. }
  destruct (lookup_attr_declared o "PRINT_RX" false eq_refl) as [rx Hrx].
  rewrite (read_response_ok self size w o first rest rx Ho Hin Hrx) in Hrun.
  assert (Hresp : resp = reverse_bits <$> first :: take
            (Z.to_nat (if byte_val (reverse_bits first) =? 0x82 then 1 else size - 1))
            rest) by congruence.
  set (n := Z.to_nat (if byte_val (reverse_bits first) =? 0x82 then 1 else size - 1)) in *.
  assert (Hlen : length resp = S (length (take n rest)))
    by (rewrite Hresp, length_fmap; reflexivity).
  injection Hrun as _ <-.
  eexists. split; [destruct rx; apply lookup_insert_eq|].
  rewrite Hlen. cbn [take drop obj_port in_waiting].
  rewrite take_length_take, drop_length_take.
  split; [by rewrite Hresp|]. split; [exact Hresp|reflexivity].
Qed.

Lemma read_response_consumes_what_it_returns_witness :
  exists o',
    objects (read_response 0 3 (one_client [x80; x02; x03; x04] [])).2 !! 0%nat
    = Some o'
    /\ [x01; x40; xc0] <> []
    /\ [x01; x40; xc0]
       = reverse_bits <$> take (length [x01; x40; xc0])
                               (in_waiting (obj_port (fresh_instance [x80; x02; x03; x04])))
    /\ in_waiting (obj_port o')
       = drop (length [x01; x40; xc0])
              (in_waiting (obj_port (fresh_instance [x80; x02; x03; x04]))).
Proof.
  apply (read_response_consumes_what_it_returns 0 3
           (one_client [x80; x02; x03; x04] [])
           (read_response 0 3 (one_client [x80; x02; x03; x04] [])).2
           (fresh_instance [x80; x02; x03; x04]) [x01; x40; xc0]);
    reflexivity.
Defined.

(** X14: how long a response can be, read off its first byte: at most 2
    bytes when it starts with 0x82 (also when fewer were asked for), and
    otherwise at most [size] bytes, or the one first byte when [size] is
    below 1. *)
Theorem read_response_length_bounds
        (self : nat) (size : Z) (w w' : World) (o : M18Object) (resp : list byte) :
  objects w !! self = Some o ->
  read_response self size w = (inr resp, w') ->
  exists b,
    head resp = Some b
    /\ (byte_val b = 0x82 -> (length resp <= 2)%nat)
    /\ (byte_val b <> 0x82 -> Z.of_nat (length resp) <= Z.max 1 size).
Proof.
  intros Ho Hrun.
  destruct (in_waiting (obj_port o)) as [|first rest] eqn:Hin.
  { rewrite (read_response_nothing self size w o Ho Hin) in Hrun. discriminate. }
  destruct (lookup_attr_declared o "PRINT_RX" false eq_refl) as [rx Hrx].
  rewrite (read_response_ok self size w o first rest rx Ho Hin Hrx) in Hrun.
  assert (Hresp : resp = reverse_bits <$> first :: take
            (Z.to_nat (if byte_val (reverse_bits first) =? 0x82 then 1 else size - 1))
            rest) by congruence.
  exists (reverse_bits first). split; [by rewrite Hresp|].
  rewrite Hresp, length_fmap. cbn [length]. rewrite length_take.
  split; intros Hs.
  - rewrite Hs, Z.eqb_refl. lia.
  - apply Z.eqb_neq in Hs. rewrite Hs. lia.
Qed.

Lemma read_response_length_bounds_witness :
  exists b,
    head [x82; x40] = Some b
    /\ (byte_val b = 0x82 -> (length [x82; x40] <= 2)%nat)
    /\ (byte_val b <> 0x82 -> Z.of_nat (length [x82; x40]) <= Z.max 1 1).
Proof.
  apply (read_response_length_bounds 0 1
           (one_client [x41; x02; x03] [])
           (read_response 0 1 (one_client [x41; x02; x03] [])).2
           (fresh_instance [x41; x02; x03]) [x82; x40]);
    reflexivity.
Defined.

(** X15: returning or raising, [read_response] only reads.  Every call
    it adds to the port's log is a read; the input that was pending is
    exactly what those reads obtained, in order, followed by what is
    pending afterwards, so no byte is dropped unread; and the flags of
    the instance, what was written to the port so far and every
    bytearray are as before. *)
Theorem read_response_only_reads
        (self : nat) (size : Z) (w : World) (o : M18Object) :
  objects w !! self = Some o ->
  exists (o' : M18Object) (calls : list (Z * list byte)),
    objects (read_response self size w).2 !! self = Some o'
    /\ port_log (obj_port o')
       = port_log (obj_port o) ++ ((fun c => PortRead c.1 c.2) <$> calls)
    /\ in_waiting (obj_port o)
       = concat (snd <$> calls) ++ in_waiting (obj_port o')
    /\ written (obj_port o') = written (obj_port o)
    /\ obj_dict o' = obj_dict o
    /\ bytearrays (read_response self size w).2 = bytearrays w.
Proof.
  intros Ho.
  destruct (in_waiting (obj_port o)) as [|first rest] eqn:Hin.
  - rewrite (read_response_nothing self size w o Ho Hin).
    eexists _, [(1, [])]. split; [apply put_object_lookup|].
    split_and!; try done.
    erewrite written_app; [|reflexivity]. cbn. apply app_nil_r.
  - destruct (lookup_attr_declared o "PRINT_RX" false eq_refl) as [rx Hrx].
    rewrite (read_response_ok self size w o first rest rx Ho Hin Hrx).
    set (n := if byte_val (reverse_bits first) =? 0x82 then 1 else size - 1).
    exists {| obj_dict := obj_dict o;
              obj_port := {| in_waiting := drop (Z.to_nat n) rest;
                             port_log := port_log (obj_port o)
                                         ++ [PortRead 1 [first];
                                             PortRead n (take (Z.to_nat n) rest)] |} |},
           [(1, [first]); (n, take (Z.to_nat n) rest)].
    split; [destruct rx; apply lookup_insert_eq|].
    split_and!; try done.
    + cbn. by rewrite app_nil_r, take_drop.
    + erewrite written_app; [|reflexivity]. cbn. apply app_nil_r.
    + by destruct rx.
Qed.

Lemma read_response_only_reads_witness :
  exists (o' : M18Object) (calls : list (Z * list byte)),
    objects (read_response 0 3 (one_client [x80; x02; x03; x04] [])).2 !! 0%nat
    = Some o'
    /\ port_log (obj_port o')
       = port_log (obj_port (fresh_instance [x80; x02; x03; x04]))
         ++ ((fun c => PortRead c.1 c.2) <$> calls)
    /\ in_waiting (obj_port (fresh_instance [x80; x02; x03; x04]))
       = concat (snd <$> calls) ++ in_waiting (obj_port o')
    /\ written (obj_port o') = written (obj_port (fresh_instance [x80; x02; x03; x04]))
    /\ obj_dict o' = obj_dict (fresh_instance [x80; x02; x03; x04])
    /\ bytearrays (read_response 0 3 (one_client [x80; x02; x03; x04] [])).2
       = bytearrays (one_client [x80; x02; x03; x04] []).
Proof.
  apply (read_response_only_reads 0 3 (one_client [x80; x02; x03; x04] [])
           (fresh_instance [x80; x02; x03; x04])).
  reflexivity.
Defined.

(** X21: once the first byte mirrors to 0x82 the requested size plays no
    part: any two sizes give the same response, the first byte and at
    most one more, and leave the same store behind. *)
Theorem read_response_sentinel_ignores_size
        (self : nat) (size1 size2 : Z) (w : World) (o : M18Object)
        (first : byte) (rest : list byte) :
  objects w !! self = Some o ->
  in_waiting (obj_port o) = first :: rest ->
  byte_val (reverse_bits first) = 0x82 ->
  read_response self size1 w = read_response self size2 w
  /\ (read_response self size1 w).1 = inr (reverse_bits <$> first :: take 1 rest).
Proof.
  intros Ho Hin Hs.
  destruct (lookup_attr_declared o "PRINT_RX" false eq_refl) as [rx Hrx].
  rewrite (read_response_ok self size1 w o first rest rx Ho Hin Hrx).
  rewrite (read_response_ok self size2 w o first rest rx Ho Hin Hrx).
  rewrite Hs, Z.eqb_refl. done.
Qed.

Lemma read_response_sentinel_ignores_size_witness :
  read_response 0 10 (one_client [x41; x02; x03] [])
  = read_response 0 1 (one_client [x41; x02; x03] [])
  /\ (read_response 0 10 (one_client [x41; x02; x03] [])).1
     = inr (reverse_bits <$> x41 :: take 1 [x02; x03]).
Proof.
  apply (read_response_sentinel_ignores_size 0 10 1 (one_client [x41; x02; x03] [])
           (fresh_instance [x41; x02; x03]) x41 [x02; x03]); reflexivity.
Defined.

(** X17: after [set_txrx_print(enable)], a [read_response] that gets a
    first byte prints exactly one line when [enable] is true, the label
    followed by the logical response in hex, and nothing when [enable]
    is false. *)
Theorem read_response_prints_when_enabled
        (self : nat) (size : Z) (enable : bool) (w : World) (o : M18Object)
        (first : byte) (rest : list byte) :
  objects w !! self = Some o ->
  in_waiting (obj_port o) = first :: rest ->
  exists resp w',
    (set_txrx_print self enable ;; read_response self size) w = (inr resp, w')
    /\ stdout w'
       = stdout w ++ (if enable then ["Received: " +:+ hex_join resp] else []).
Proof.
  intros Ho Hin. rewrite (set_txrx_print_then self enable _ w o Ho).
  erewrite (read_response_ok self size _ _ first rest enable); cycle 1.
  - apply put_object_lookup.
  - exact Hin.
  - apply lookup_attr_assign.
  - eexists _, _. split; [reflexivity|].
    destruct enable; cbn; [reflexivity | by rewrite app_nil_r].
Qed.

Lemma read_response_prints_when_enabled_witness :
  exists resp w',
    (set_txrx_print 0 true ;; read_response 0 2) (one_client [x80; x02] [])
    = (inr resp, w')
    /\ stdout w'
       = stdout (one_client [x80; x02] [])
         ++ (if true then ["Received: " +:+ hex_join resp] else []).
Proof.
  apply (read_response_prints_when_enabled 0 2 true (one_client [x80; x02] [])
           (fresh_instance [x80; x02]) x80 [x02]); reflexivity.
Defined.

(** ** The saved print state *)

(** X16: the quiet read.  [save_and_set_txrx(False)], then a
    [read_response] that gets a first byte, then [restore_txrx()]:
    nothing is printed, whatever the flags were, and afterwards both
    flags read what they read at the start. *)
Theorem quiet_read_response
        (self : nat) (size : Z) (w : World) (o : M18Object)
        (first : byte) (rest : list byte) :
  objects w !! self = Some o ->
  in_waiting (obj_port o) = first :: rest ->
  exists resp w',
    (save_and_set_txrx self false ;;
     (resp ← read_response self size; restore_txrx self ;; mret resp)) w
    = (inr resp, w')
    /\ stdout w' = stdout w
    /\ (getattr self "PRINT_TX" w').1 = (getattr self "PRINT_TX" w).1
    /\ (getattr self "PRINT_RX" w').1 = (getattr self "PRINT_RX" w).1.
Proof.
  intros Ho Hin.
  destruct (lookup_attr_declared o "PRINT_TX" false eq_refl) as [tx Htx].
  destruct (lookup_attr_declared o "PRINT_RX" false eq_refl) as [rx Hrx].
  rewrite (bind_ok _ _ _ _ _ (save_and_set_txrx_ok self false tx rx w o Ho Htx Hrx)).
  set (o1 := assign_attr "PRINT_RX" false (assign_attr "PRINT_TX" false
              (assign_attr "PRINT_RX_SAVE" rx (assign_attr "PRINT_TX_SAVE" tx o)))).
  erewrite bind_ok; cycle 1.
  { apply (read_response_ok self size _ o1 first rest false).
    - apply put_object_lookup.
    - exact Hin.
    - apply lookup_attr_assign. }
  cbv zeta. unfold id. rewrite put_object_twice.
  set (o2 := {| obj_dict := obj_dict o1; obj_port := _ |}).
  erewrite bind_ok; cycle 1.
  { apply (restore_txrx_ok self tx rx _ o2); [apply put_object_lookup| |].
    - change (lookup_attr o2 "PRINT_TX_SAVE") with (lookup_attr o1 "PRINT_TX_SAVE").
      unfold o1. rewrite !lookup_attr_assign_ne by done. apply lookup_attr_assign.
    - change (lookup_attr o2 "PRINT_RX_SAVE") with (lookup_attr o1 "PRINT_RX_SAVE").
      unfold o1. rewrite 2!lookup_attr_assign_ne by done. apply lookup_attr_assign. }
  rewrite put_object_twice.
  eexists _, _. split; [reflexivity|]. split; [reflexivity|].
  rewrite !getattr_put_object.
  rewrite lookup_attr_assign_ne, !lookup_attr_assign by done.
  unfold getattr. rewrite Ho, Htx, Hrx. done.
Qed.

Lemma quiet_read_response_witness :
  exists resp w',
    (save_and_set_txrx 0 false ;;
     (resp ← read_response 0 2; restore_txrx 0 ;; mret resp))
      (one_client [x80; x02] [])
    = (inr resp, w')
    /\ stdout w' = stdout (one_client [x80; x02] [])
    /\ (getattr 0 "PRINT_TX" w').1 = (getattr 0 "PRINT_TX" (one_client [x80; x02] [])).1
    /\ (getattr 0 "PRINT_RX" w').1 = (getattr 0 "PRINT_RX" (one_client [x80; x02] [])).1.
Proof.
  apply (quiet_read_response 0 2 (one_client [x80; x02] [])
           (fresh_instance [x80; x02]) x80 [x02]); reflexivity.
Defined.

(** X18: the saved state is one slot, not a stack.  After
    [save_and_set_txrx(a)], [save_and_set_txrx(b)], [restore_txrx()],
    [restore_txrx()], both flags read [a], whatever they read at the
    start: the second save has overwritten the first. *)
Theorem nested_save_restore_keeps_inner
        (self : nat) (a b : bool) (w : World) (o : M18Object) :
  objects w !! self = Some o ->
  exists w',
    (save_and_set_txrx self a ;; save_and_set_txrx self b ;;
     restore_txrx self ;; restore_txrx self) w = (inr tt, w')
    /\ (getattr self "PRINT_TX" w').1 = inr a
    /\ (getattr self "PRINT_RX" w').1 = inr a.
Proof.
  intros Ho.
  destruct (lookup_attr_declared o "PRINT_TX" false eq_refl) as [tx Htx].
  destruct (lookup_attr_declared o "PRINT_RX" false eq_refl) as [rx Hrx].
  rewrite (bind_ok _ _ _ _ _ (save_and_set_txrx_ok self a tx rx w o Ho Htx Hrx)).
  erewrite bind_ok; cycle 1.
  { apply (save_and_set_txrx_ok self b a a); [apply put_object_lookup| |].
    - rewrite lookup_attr_assign_ne by done. apply lookup_attr_assign.
    - apply lookup_attr_assign. }
  rewrite put_object_twice.
  erewrite bind_ok; cycle 1.
  { apply (restore_txrx_ok self a a); [apply put_object_lookup| |].
    - rewrite !lookup_attr_assign_ne by done. apply lookup_attr_assign.
    - rewrite 2!lookup_attr_assign_ne by done. apply lookup_attr_assign. }
  rewrite put_object_twice.
  erewrite restore_txrx_ok; cycle 1.
  { apply put_object_lookup. }
  { rewrite !lookup_attr_assign_ne by done. apply lookup_attr_assign. }
  { rewrite !lookup_attr_assign_ne by done. apply lookup_attr_assign. }
  rewrite put_object_twice.
  eexists. split; [reflexivity|].
  rewrite !getattr_put_object.
  by rewrite lookup_attr_assign_ne, !lookup_attr_assign by done.
Qed.

Lemma nested_save_restore_keeps_inner_witness :
  exists w',
    (save_and_set_txrx 0 true ;; save_and_set_txrx 0 false ;;
     restore_txrx 0 ;; restore_txrx 0) two_clients = (inr tt, w')
    /\ (getattr 0 "PRINT_TX" w').1 = inr true
    /\ (getattr 0 "PRINT_RX" w').1 = inr true.
Proof.
  apply (nested_save_restore_keeps_inner 0 true false two_clients (fresh_instance [])).
  reflexivity.
Defined.

(** X19: [restore_txrx()] on a client that never saved restores the
    class values of the two saved slots: both flags read False
    afterwards, also when they read True before. *)
Theorem restore_txrx_without_save
        (self : nat) (w : World) (o : M18Object) :
  objects w !! self = Some o ->
  obj_dict o !! "PRINT_TX_SAVE" = None ->
  obj_dict o !! "PRINT_RX_SAVE" = None ->
  exists w',
    restore_txrx self w = (inr tt, w')
    /\ (getattr self "PRINT_TX" w').1 = inr false
    /\ (getattr self "PRINT_RX" w').1 = inr false.
Proof.
  intros Ho Htx Hrx.
  rewrite (restore_txrx_ok self false false w o Ho).
  - eexists. split; [reflexivity|].
    rewrite !getattr_put_object.
    by rewrite lookup_attr_assign_ne, !lookup_attr_assign by done.
  - unfold lookup_attr. rewrite Htx. reflexivity.
  - unfold lookup_attr. rewrite Hrx. reflexivity.
Qed.

Lemma restore_txrx_without_save_witness :
  exists w',
    restore_txrx 0 (set_txrx_print 0 true two_clients).2 = (inr tt, w')
    /\ (getattr 0 "PRINT_TX" w').1 = inr false
    /\ (getattr 0 "PRINT_RX" w').1 = inr false.
Proof.
  apply (restore_txrx_without_save 0 (set_txrx_print 0 true two_clients).2
           (assign_attr "PRINT_RX" true
              (assign_attr "PRINT_TX" true (fresh_instance []))));
    reflexivity.
Defined.

(** X20: [set_txrx_print] changes the two flags and nothing else: the
    saved slots and every other attribute of the instance, its port,
    the bytearrays and the printed lines are as before. *)
Theorem set_txrx_print_frame
        (self : nat) (enable : bool) (w : World) (o : M18Object) :
  objects w !! self = Some o ->
  exists w' o',
    set_txrx_print self enable w = (inr tt, w')
    /\ objects w' !! self = Some o'
    /\ obj_port o' = obj_port o
    /\ (forall name : string,
           name ≠ "PRINT_TX" -> name ≠ "PRINT_RX" ->
           lookup_attr o' name = lookup_attr o name)
    /\ bytearrays w' = bytearrays w
    /\ stdout w' = stdout w.
Proof.
  intros Ho. eexists _, _. split; [by apply set_txrx_print_ok|].
  split; [apply put_object_lookup|]. split_and!; try done.
  intros name H1 H2. by rewrite !lookup_attr_assign_ne.
Qed.

Lemma set_txrx_print_frame_witness :
  exists w' o',
    set_txrx_print 0 true (one_client [x01] [x62]) = (inr tt, w')
    /\ objects w' !! 0%nat = Some o'
    /\ obj_port o' = obj_port (fresh_instance [x01])
    /\ (forall name : string,
           name ≠ "PRINT_TX" -> name ≠ "PRINT_RX" ->
           lookup_attr o' name = lookup_attr (fresh_instance [x01]) name)
    /\ bytearrays w' = bytearrays (one_client [x01] [x62])
    /\ stdout w' = stdout (one_client [x01] [x62]).
Proof.
  apply (set_txrx_print_frame 0 true (one_client [x01] [x62]) (fresh_instance [x01])).
  reflexivity.
Defined.

(** ** Port selection with ports listed *)

Lemma list_ports_loop_result (ports : list ListPortInfo) :
  forall (i : Z) (c : Console),
    (list_ports_loop i ports c).1 = i + Z.of_nat (length ports)
    /\ stdin (list_ports_loop i ports c).2 = stdin c.
Proof.
  induction ports as [|p ports IH]; intros i c.
  - simpl. split; [lia|reflexivity].
  - cbn [list_ports_loop length]. destruct (IH (i + 1) (show ("  " +:+ pretty i +:+ ": " +:+ port_label p) c)) as [-> ->].
    split; [lia|reflexivity].
Qed.

Section PortSelectorFurther.

Variable int : string -> option Z.

(** The loop only lets a number of the listed range through, and
    [EOFError] is all it raises. *)
Lemma selection_loop_outcome (i : Z) (lines : list string) :
  forall (port_id : Z) (shown_ : list string) (c : Console),
    (forall k, selection_loop int i port_id lines shown_ = (inr k, c) -> 1 <= k < i)
    /\ (forall e, selection_loop int i port_id lines shown_ = (inl e, c) -> e = EOFError).
Proof.
  induction lines as [|line lines IH]; intros port_id shown_ c;
    cbn [selection_loop];
    destruct ((port_id <? 1) || (port_id >=? i)) eqn:Hcond.
  - split; [intros k [=]|intros e [= <- _]; reflexivity].
  - split; [|intros e [=]]. intros k [= <- _].
    apply orb_false_iff in Hcond as [H1 H2].
    apply Z.ltb_ge in H1. rewrite Z.geb_leb in H2. apply Z.leb_gt in H2. lia.
  - destruct (int line); apply IH.
  - split; [|intros e [=]]. intros k [= <- _].
    apply orb_false_iff in Hcond as [H1 H2].
    apply Z.ltb_ge in H1. rewrite Z.geb_leb in H2. apply Z.leb_gt in H2. lia.
Qed.

(** Lines that are no number, or a number outside [1, i - 1], are passed
    over; the first line that is a number of the range ends the loop,
    with the lines after it still to be read. *)
Lemma selection_loop_accepts (i k : Z) (choice : string) (tail : list string)
      (rejected : list string) :
  Forall (fun line => forall n, int line = Some n -> n < 1 \/ i <= n) rejected ->
  int choice = Some k -> 1 <= k < i ->
  forall (port_id : Z) (shown_ : list string),
    port_id < 1 \/ i <= port_id ->
    exists shown',
      selection_loop int i port_id (rejected ++ choice :: tail) shown_
      = (inr k, {| stdin := tail; shown := shown' |}).
Proof.
  intros Hrej Hk Hrange.
  assert (Hstop : (k <? 1) || (k >=? i) = false).
  { apply orb_false_iff. split; [apply Z.ltb_ge; lia|].
    rewrite Z.geb_leb. apply Z.leb_gt. lia. }
  assert (Hgo : forall port_id, port_id < 1 \/ i <= port_id ->
                                (port_id <? 1) || (port_id >=? i) = true).
  { intros port_id [H|H].
    - apply orb_true_iff. left. apply Z.ltb_lt. lia.
    - apply orb_true_iff. right. rewrite Z.geb_leb. apply Z.leb_le. lia. }
  induction Hrej as [|line rejected Hline _ IH]; intros port_id shown_ Hout.
  - cbn [app selection_loop]. rewrite (Hgo _ Hout), Hk.
    destruct tail; cbn [selection_loop]; rewrite Hstop; eauto.
  - cbn [app selection_loop]. rewrite (Hgo _ Hout).
    destruct (int line) as [n|] eqn:Hn.
    + apply IH. by apply Hline.
    + apply IH. exact Hout.
Qed.

(** X22: whenever [prompt_com_port_selection] returns, what it returns
    is the device of one of the listed ports: the port at position
    [k - 1] for some number [k] between 1 and the number of ports. *)
Theorem prompt_returns_listed_device
        (ports : list ListPortInfo) (c c' : Console) (dev : string) :
  prompt_com_port_selection int ports c = (inr dev, c') ->
  exists (k : Z) (p : ListPortInfo),
    1 <= k <= Z.of_nat (length ports)
    /\ ports !! Z.to_nat (k - 1) = Some p
    /\ device p = dev.
Proof.
  unfold prompt_com_port_selection.
  destruct (list_ports_loop_result ports 1
              (show "Available serial ports (choose one that says USB somewhere):"
                    (show "*** NO PORT SPECIFIED ***" c))) as [Hi _].
  destruct (list_ports_loop 1 ports _) as [i c1]. cbn [fst] in Hi.
  destruct (selection_loop int i 0 (stdin c1) (shown c1)) as [[e|k] c2] eqn:Hloop;
    [intros [=]|].
  destruct (selection_loop_outcome i (stdin c1) 0 (shown c1) c2) as [Hk _].
  specialize (Hk k Hloop).
  destruct (ports !! Z.to_nat (k - 1)) as [p|] eqn:Hp; [|intros [=]].
  cbn [show stdin]. destruct (stdin c2); [intros [=]|].
  intros [= <- _]. exists k, p. split; [lia|done].
Qed.

(** X23: the selector never fails on its own index: whatever is listed
    and whatever is typed, the call either returns a device or ends in
    the [EOFError] of an exhausted input. *)
Theorem prompt_never_index_error (ports : list ListPortInfo) (c : Console) :
  (exists dev, (prompt_com_port_selection int ports c).1 = inr dev)
  \/ (prompt_com_port_selection int ports c).1 = inl EOFError.
Proof.
  unfold prompt_com_port_selection.
  destruct (list_ports_loop_result ports 1
              (show "Available serial ports (choose one that says USB somewhere):"
                    (show "*** NO PORT SPECIFIED ***" c))) as [Hi _].
  destruct (list_ports_loop 1 ports _) as [i c1]. cbn [fst] in Hi.
  destruct (selection_loop int i 0 (stdin c1) (shown c1)) as [[e|k] c2] eqn:Hloop.
  - destruct (selection_loop_outcome i (stdin c1) 0 (shown c1) c2) as [_ He].
    rewrite (He e Hloop). by right.
  - destruct (selection_loop_outcome i (stdin c1) 0 (shown c1) c2) as [Hk _].
    specialize (Hk k Hloop).
    destruct (lookup_lt_is_Some_2 ports (Z.to_nat (k - 1))) as [p ->]; [lia|].
    cbn [show stdin]. destruct (stdin c2); [by right|left; eauto].
Qed.

(** X24: lines that are no number, or a number outside 1..count, are
    passed over; the first line that is a number [k] of that range
    selects the [k]-th port, the next line is taken as the Enter, and
    the call returns that port's device with the remaining lines still
    unread. *)
Theorem prompt_selects_first_valid_line
        (ports : list ListPortInfo) (p : ListPortInfo) (k : Z)
        (rejected : list string) (choice enter : string) (rest shown_ : list string) :
  Forall (fun line => forall n, int line = Some n ->
                                n < 1 \/ Z.of_nat (length ports) < n) rejected ->
  int choice = Some k ->
  1 <= k ->
  ports !! Z.to_nat (k - 1) = Some p ->
  exists shown',
    prompt_com_port_selection int ports
      {| stdin := rejected ++ choice :: enter :: rest; shown := shown_ |}
    = (inr (device p), {| stdin := rest; shown := shown' |}).
Proof.
  intros Hrej Hk Hk1 Hp.
  pose proof (lookup_lt_Some _ _ _ Hp) as Hlt.
  unfold prompt_com_port_selection.
  destruct (list_ports_loop_result ports 1
              (show "Available serial ports (choose one that says USB somewhere):"
                    (show "*** NO PORT SPECIFIED ***"
                          {| stdin := rejected ++ choice :: enter :: rest;
                             shown := shown_ |}))) as [Hi Hin].
  destruct (list_ports_loop 1 ports _) as [i c1]. cbn [fst snd show stdin] in Hi, Hin.
  rewrite Hin.
  destruct (selection_loop_accepts i k choice (enter :: rest) rejected) with
    (port_id := 0) (shown_ := shown c1) as [shown' ->]; [|exact Hk|lia|lia|].
  { eapply Forall_impl; [exact Hrej|]. cbn. intros line H n Hn.
    destruct (H n Hn); lia. }
  rewrite Hp. cbn [show stdin shown]. eauto.
Qed.

(** X25: a valid choice alone does not return: when the input ends
    right after the number, the wait for Enter ends in [EOFError] and no
    device is returned. *)
Theorem prompt_requires_enter
        (ports : list ListPortInfo) (p : ListPortInfo) (k : Z)
        (choice : string) (shown_ : list string) :
  int choice = Some k ->
  1 <= k ->
  ports !! Z.to_nat (k - 1) = Some p ->
  (prompt_com_port_selection int ports {| stdin := [choice]; shown := shown_ |}).1
  = inl EOFError.
Proof.
  intros Hk Hk1 Hp.
  pose proof (lookup_lt_Some _ _ _ Hp) as Hlt.
  unfold prompt_com_port_selection.
  destruct (list_ports_loop_result ports 1
              (show "Available serial ports (choose one that says USB somewhere):"
                    (show "*** NO PORT SPECIFIED ***"
                          {| stdin := [choice]; shown := shown_ |}))) as [Hi Hin].
  destruct (list_ports_loop 1 ports _) as [i c1]. cbn [fst snd show stdin] in Hi, Hin.
  rewrite Hin.
  destruct (selection_loop_accepts i k choice [] []) with
    (port_id := 0) (shown_ := shown c1) as [shown' Hrun];
    [constructor|exact Hk|lia|lia|].
  cbn [app] in Hrun. rewrite Hrun, Hp. reflexivity.
Qed.

End PortSelectorFurther.

Lemma prompt_returns_listed_device_witness :
  exists (k : Z) (p : ListPortInfo),
    1 <= k <= Z.of_nat (length two_ports)
    /\ two_ports !! Z.to_nat (k - 1) = Some p
    /\ device p = "/devB"%string.
Proof.
  apply (prompt_returns_listed_device int_of_line two_ports
           {| stdin := ["2"; "ok"]%string; shown := [] |}
           (prompt_com_port_selection int_of_line two_ports
              {| stdin := ["2"; "ok"]%string; shown := [] |}).2
           "/devB"%string).
  reflexivity.
Defined.

Lemma prompt_selects_first_valid_line_witness :
  exists shown',
    prompt_com_port_selection int_of_line two_ports
      {| stdin := ["x"; "0"; "3"]%string ++ "2"%string :: "ok"%string :: ["next"%string];
         shown := [] |}
    = (inr "/devB"%string, {| stdin := ["next"%string]; shown := shown' |}).
Proof.
  apply (prompt_selects_first_valid_line int_of_line two_ports
           (mkListPortInfo "/devB" "Prolific" "USB-Serial Controller") 2
           ["x"; "0"; "3"]%string "2"%string "ok"%string ["next"%string] []).
  - repeat (apply Forall_cons_2;
            [intros n Hn; vm_compute in Hn;
             first [discriminate | injection Hn as <-; cbn; lia]|]).
    apply Forall_nil_2.
  - reflexivity.
  - lia.
  - reflexivity.
Defined.

Lemma prompt_requires_enter_witness :
  (prompt_com_port_selection int_of_line two_ports
     {| stdin := ["1"%string]; shown := [] |}).1
  = inl EOFError.
Proof.
  apply (prompt_requires_enter int_of_line two_ports
           (mkListPortInfo "/devA" "FTDI" "USB Serial") 1 "1"%string []).
  - reflexivity.
  - lia.
  - reflexivity.
Defined.

(** ** Hex dumps *)

Lemma byte_val_injective (a b : byte) : byte_val a = byte_val b -> a = b.
Proof.
  unfold byte_val. intros H. apply N2Z.inj in H.
  pose proof (Byte.of_to_N a) as Ha. rewrite H, Byte.of_to_N in Ha.
  congruence.
Qed.

(** A byte is shown as exactly two characters. *)
Lemma hex2_two_chars (b : byte) :
  exists c1 c2, hex2 b = String c1 (String c2 EmptyString).
Proof. destruct b; vm_compute; eauto. Qed.

(** And the two characters tell which byte it was. *)
Lemma hex2_inj (a b : byte) : hex2 a = hex2 b -> a = b.
Proof.
  pose (v := fun c : Ascii.ascii =>
               let n := Z.of_N (Ascii.N_of_ascii c) in
               if n <? 58 then n - 48 else n - 55).
  pose (g := fun s : string =>
               match s with
               | String c1 (String c2 EmptyString) => 16 * v c1 + v c2
               | _ => -1
               end).
  assert (Hg : forall x : byte, g (hex2 x) = byte_val x)
    by (intros x; destruct x; vm_compute; reflexivity).
  intros H. apply byte_val_injective. rewrite <- !Hg. by rewrite H.
Qed.

Lemma string_append_cons (c : Ascii.ascii) (s t : string) :
  (String c s +:+ t)%string = String c (s +:+ t).
Proof. reflexivity. Qed.

Lemma string_append_nil (t : string) : (EmptyString +:+ t)%string = t.
Proof. reflexivity. Qed.

Lemma hex_join_cons2 (a b : byte) (l : list byte) :
  hex_join (a :: b :: l) = (hex2 a +:+ " " +:+ hex_join (b :: l))%string.
Proof. reflexivity. Qed.

Lemma hex_join_length (data : list byte) :
  String.length (hex_join data) = (3 * length data - 1)%nat.
Proof.
  induction data as [|a [|b l] IH].
  - reflexivity.
  - destruct (hex2_two_chars a) as (c1 & c2 & E).
    unfold hex_join. cbn [map String.concat]. rewrite E. reflexivity.
  - rewrite hex_join_cons2.
    destruct (hex2_two_chars a) as (c1 & c2 & ->).
    rewrite !string_append_cons, !string_append_nil. cbn [String.length].
    rewrite IH. cbn [length]. lia.
Qed.

(** X26: [print_debug_bytes] prints exactly one line and changes nothing
    else.  The line is the label [DEBUG:], two spaces (the one of the
    label and the one [print] puts between its arguments), then the
    bytes as two hex digits each with single spaces between them: it is
    8 characters long for no byte and 7 + 3n characters for n >= 1
    bytes. *)
Theorem print_debug_bytes_line (data : nat) (w : World) (content : list byte) :
  bytearrays w !! data = Some content ->
  exists line,
    print_debug_bytes data w = (inr tt, put_line line w)
    /\ line = ("DEBUG:  " +:+ hex_join content)%string
    /\ String.length line = (8 + (3 * length content - 1))%nat.
Proof.
  intros Hd. eexists. split.
  - unfold print_debug_bytes, mbind, Py_bind, bytearray_get, print.
    rewrite Hd. reflexivity.
  - split; [reflexivity|].
    rewrite !string_append_cons, !string_append_nil. cbn [String.length].
    by rewrite hex_join_length.
Qed.

Lemma print_debug_bytes_line_witness :
  exists line,
    print_debug_bytes 0 (one_client [] [x62; x00; x62])
    = (inr tt, put_line line (one_client [] [x62; x00; x62]))
    /\ line = ("DEBUG:  " +:+ hex_join [x62; x00; x62])%string
    /\ String.length line = (8 + (3 * length [x62; x00; x62] - 1))%nat.
Proof.
  apply (print_debug_bytes_line 0 (one_client [] [x62; x00; x62]) [x62; x00; x62]).
  reflexivity.
Defined.

(** X27: the hex text printed for a byte sequence (by [_send],
    [read_response] and [print_debug_bytes]) tells the sequence: two
    sequences with the same text are the same bytes in the same
    order. *)
Theorem hex_join_inj (data1 data2 : list byte) :
  hex_join data1 = hex_join data2 -> data1 = data2.
Proof.
  revert data2. induction data1 as [|a l1 IH]; intros [|b l2] H.
  - reflexivity.
  - apply (f_equal String.length) in H. rewrite !hex_join_length in H.
    cbn [length] in H. lia.
  - apply (f_equal String.length) in H. rewrite !hex_join_length in H.
    cbn [length] in H. lia.
  - destruct l1 as [|a' l1], l2 as [|b' l2].
    + f_equal. apply hex2_inj. exact H.
    + apply (f_equal String.length) in H. rewrite !hex_join_length in H.
      cbn [length] in H. lia.
    + apply (f_equal String.length) in H. rewrite !hex_join_length in H.
      cbn [length] in H. lia.
    + rewrite !hex_join_cons2 in H.
      destruct (hex2_two_chars a) as (c1 & c2 & Ea).
      destruct (hex2_two_chars b) as (d1 & d2 & Eb).
      rewrite Ea, Eb, !string_append_cons, !string_append_nil in H.
      injection H as H1 H2 H3.
      f_equal.
      * apply hex2_inj. rewrite Ea, Eb. by subst.
      * by apply IH.
Qed.

Lemma hex_join_inj_witness : [x62; x00; x62] = [x62; x00; x62].
Proof.
  apply (hex_join_inj [x62; x00; x62] [x62; x00; x62]). reflexivity.
Defined.
